(** * Stock market analyzer: the metrics engine of [stock_analyzer.py]

    A shallow embedding of [calculate_metrics], [display_key_metrics],
    [display_company_info], the three chart functions, the statistical
    summary and the request handling of the Streamlit script, together with
    the properties its specification states about them.

    The pandas frame is a mutable object: [calculate_metrics] assigns six
    columns to the frame it is handed and returns that same frame.  The
    embedding therefore keeps frames in a store and passes references.

    Numbers.  Every pandas column used here is [float64].  The pipeline is
    written once over an interface [Float64] with two instances:
    - [binary64]: Rocq's primitive IEEE 754 floats, the arithmetic the
      program runs on; it evaluates the pipeline bit for bit wherever the
      source spells out the order of operations ([pct_change], [cumprod],
      the total return), and decides which rows of a rolling aggregate hold
      a value; the values of the rolling aggregates themselves are not
      stated over it, since pandas computes them by a running update;
    - [xreal]: the reals extended with [NaN], [+inf] and [-inf], i.e. IEEE
      arithmetic without rounding (and without signed zeros); the algebraic
      claims are proved there. *)

From Stdlib Require Import Reals Lra Lia ZArith Floats Sorted.
From stdpp Require Import gmap strings list.

Set Default Proof Using "Type".

(** ** The arithmetic interface *)

Class Float64 (F : Type) := {
  f_of_Z : Z → F;
  nan : F;
  fadd : F → F → F;
  fsub : F → F → F;
  fmul : F → F → F;
  fdiv : F → F → F;
  fsqrt : F → F;
  fabs : F → F;
  fleb : F → F → bool;
  isnan : F → bool;
  isinf : F → bool
}.

Definition f_of_nat `{Float64 F} (n : nat) : F := f_of_Z (Z.of_nat n).

(** *** Extended reals: IEEE 754 special values, exact finite arithmetic *)

Inductive xreal : Type :=
  | Fin (r : R)
  | PInf
  | NInf
  | NaN.

Module XReal.
Local Open Scope R_scope.

Definition inf_of_sign (positive : bool) : xreal :=
  if positive then PInf else NInf.

Definition opp (a : xreal) : xreal :=
  match a with
  | Fin x => Fin (- x)
  | PInf => NInf
  | NInf => PInf
  | NaN => NaN
  end.

Definition add (a b : xreal) : xreal :=
  match a, b with
  | NaN, _ | _, NaN => NaN
  | Fin x, Fin y => Fin (x + y)
  | PInf, NInf | NInf, PInf => NaN
  | PInf, _ | _, PInf => PInf
  | NInf, _ | _, NInf => NInf
  end.

Definition sub (a b : xreal) : xreal := add a (opp b).

(** The sign of a finite factor next to an infinity: [None] for zero. *)
Definition sign (x : R) : option bool :=
  if Req_dec_T x 0 then None
  else if Rlt_dec 0 x then Some true else Some false.

Definition mul_inf (positive : bool) (b : xreal) : xreal :=
  match b with
  | NaN => NaN
  | PInf => inf_of_sign positive
  | NInf => inf_of_sign (negb positive)
  | Fin y =>
      match sign y with
      | None => NaN
      | Some s => inf_of_sign (if s then positive else negb positive)
      end
  end.

Definition mul (a b : xreal) : xreal :=
  match a, b with
  | NaN, _ => NaN
  | Fin x, Fin y => Fin (x * y)
  | PInf, _ => mul_inf true b
  | NInf, _ => mul_inf false b
  | Fin _, _ => match b with
                | PInf => mul_inf true a
                | NInf => mul_inf false a
                | _ => NaN
                end
  end.

(** Division: a finite quotient when the divisor is a non-zero real;
    [x / 0] is [NaN] for [x = 0] and an infinity of the sign of [x]
    otherwise, as numpy does for float64. *)
Definition div (a b : xreal) : xreal :=
  match a, b with
  | NaN, _ | _, NaN => NaN
  | Fin x, Fin y =>
      if Req_dec_T y 0 then
        match sign x with
        | None => NaN
        | Some s => inf_of_sign s
        end
      else Fin (x / y)
  | Fin _, (PInf | NInf) => Fin 0
  | (PInf | NInf), (PInf | NInf) => NaN
  | PInf, Fin y => inf_of_sign (if Rlt_dec y 0 then false else true)
  | NInf, Fin y => inf_of_sign (if Rlt_dec y 0 then true else false)
  end.

Definition sqrt (a : xreal) : xreal :=
  match a with
  | Fin x => if Rlt_dec x 0 then NaN else Fin (R_sqrt.sqrt x)
  | PInf => PInf
  | NInf | NaN => NaN
  end.

Definition abs (a : xreal) : xreal :=
  match a with
  | Fin x => Fin (Rabs x)
  | PInf | NInf => PInf
  | NaN => NaN
  end.

Definition leb (a b : xreal) : bool :=
  match a, b with
  | NaN, _ | _, NaN => false
  | Fin x, Fin y => if Rle_dec x y then true else false
  | NInf, _ | _, PInf => true
  | _, _ => false
  end.

Definition is_nan (a : xreal) : bool :=
  match a with NaN => true | _ => false end.

Definition is_inf (a : xreal) : bool :=
  match a with PInf | NInf => true | _ => false end.
End XReal.

#[export] Instance xreal_float64 : Float64 xreal := {|
  f_of_Z z := Fin (IZR z);
  nan := NaN;
  fadd := XReal.add;
  fsub := XReal.sub;
  fmul := XReal.mul;
  fdiv := XReal.div;
  fsqrt := XReal.sqrt;
  fabs := XReal.abs;
  fleb := XReal.leb;
  isnan := XReal.is_nan;
  isinf := XReal.is_inf
|}.

(** *** IEEE 754 binary64 *)

(** The conversion of an integer, rounded to nearest even; an integer too
    large for binary64 becomes an infinity. *)
Definition float_of_Z (z : Z) : float :=
  if (Z.abs z <? 2 ^ 63)%Z then
    if (z <? 0)%Z then PrimFloat.opp (PrimFloat.of_uint63 (Uint63.of_Z (- z)))
    else PrimFloat.of_uint63 (Uint63.of_Z z)
  else SF2Prim (binary_normalize prec emax z 0 false).

#[export] Instance binary64 : Float64 float := {|
  f_of_Z := float_of_Z;
  nan := PrimFloat.nan;
  fadd := PrimFloat.add;
  fsub := PrimFloat.sub;
  fmul := PrimFloat.mul;
  fdiv := PrimFloat.div;
  fsqrt := PrimFloat.sqrt;
  fabs := PrimFloat.abs;
  fleb := PrimFloat.leb;
  isnan := PrimFloat.is_nan;
  isinf := PrimFloat.is_infinity
|}.

(** ** pandas series operations used by the script

    A series is the list of its [float64] values, in index order; a missing
    value is [nan], as pandas stores it.  Library functions are modelled by
    their documented meaning, in the order of operations the program text
    gives ([data / data.shift(1) - 1], a left-to-right running product). *)

Section Pandas.
Context {F : Type} `{!Float64 F}.

Definition zero : F := f_of_Z 0.
Definition one : F := f_of_Z 1.

(** [Series.shift(1)]: every value moves down one row, the first row
    becomes missing, the length is kept. *)
Definition shift1 (xs : list F) : list F := take (length xs) (nan :: xs).

(** [Series.pct_change()]: [data / data.shift(1) - 1].  Older pandas
    forward-fills missing values of [data] first; the two agree on a series
    without missing values, which is what the properties below are about. *)
Definition pct_change (xs : list F) : list F :=
  zip_with (λ x prev, fsub (fdiv x prev) one) xs (shift1 xs).

(** [1 + s], [s - 1] and [s * k] with a scalar. *)
Definition radd_scalar (k : F) (xs : list F) : list F := fadd k <$> xs.
Definition sub_scalar (xs : list F) (k : F) : list F := (λ x, fsub x k) <$> xs.
Definition mul_scalar (xs : list F) (k : F) : list F := (λ x, fmul x k) <$> xs.

(** [numpy.cumprod]: [out[0] = v[0]], [out[i] = out[i-1] * v[i]]. *)
Fixpoint cumprod_from (acc : F) (xs : list F) : list F :=
  match xs with
  | [] => []
  | x :: rest => let a := fmul acc x in a :: cumprod_from a rest
  end.

Definition np_cumprod (xs : list F) : list F :=
  match xs with
  | [] => []
  | x :: rest => x :: cumprod_from x rest
  end.

(** [Series.cumprod()] (skipna): missing values are replaced by 1 for the
    accumulation and put back as missing in the result. *)
Definition cumprod (xs : list F) : list F :=
  let vals := (λ x, if isnan x then one else x) <$> xs in
  zip_with (λ x a, if isnan x then nan else a) xs (np_cumprod vals).

(** Left-to-right sum. *)
Definition fsum (xs : list F) : F := foldl fadd zero xs.

(** The observations an aggregate sees: missing values are skipped. *)
Definition dropna (xs : list F) : list F :=
  filter (λ x, isnan x = false) xs.

Definition mean_of (obs : list F) : F :=
  fdiv (fsum obs) (f_of_nat (length obs)).

(** Standard deviation with [ddof = 1]: missing unless more than one
    observation is present. *)
Definition std_of (obs : list F) : F :=
  if (length obs <=? 1)%nat then nan
  else
    let m := mean_of obs in
    let ss := fsum ((λ x, fmul (fsub x m) (fsub x m)) <$> obs) in
    fsqrt (fdiv ss (f_of_nat (length obs - 1))).

(** [Series.mean()] and [Series.std()] (skipna, [ddof = 1]). *)
Definition series_mean (xs : list F) : F := mean_of (dropna xs).
Definition series_std (xs : list F) : F := std_of (dropna xs).

(** [Series.rolling(window=w)]: the trailing window that ends at row [i]
    is [values[max(0, i-w+1) .. i]]; infinities are turned into missing
    values first; [min_periods] defaults to [w], so the aggregate is
    missing unless the window holds [w] observations.

    Which rows hold a value is decided by that count alone.  The value is
    the aggregate of the window by its documented meaning: the mean, and the
    standard deviation with [ddof = 1].  pandas does not recompute a window
    from scratch: it keeps a running mean and sum of squared deviations,
    adding the observation that enters and removing the one that leaves.
    In exact arithmetic that update yields the aggregate of the window; in
    binary64 it yields it up to the rounding error the update has
    accumulated, which for the standard deviation can be far more than one
    rounding.  So what the value of a rolling aggregate is, is stated over
    [xreal] only; over [binary64] only which rows hold a value is. *)
Definition prep_values (xs : list F) : list F :=
  (λ x, if isinf x then nan else x) <$> xs.

Definition window (w i : nat) (xs : list F) : list F :=
  drop (i + 1 - w) (take (i + 1) xs).

Definition rolling (w : nat) (agg : list F → F) (xs : list F) : list F :=
  (λ i, let obs := dropna (window w i (prep_values xs)) in
        if (w <=? length obs)%nat then agg obs else nan)
    <$> seq 0 (length xs).

Definition rolling_mean (w : nat) : list F → list F := rolling w mean_of.
Definition rolling_std (w : nat) : list F → list F := rolling w std_of.

(** ** Frames and the store *)

Inductive Column : Type :=
  | FloatCol (xs : list F)
  | IntCol (zs : list Z).

(** The values of a column as [float64], as arithmetic on it sees them. *)
Definition values (c : Column) : list F :=
  match c with
  | FloatCol xs => xs
  | IntCol zs => f_of_Z <$> zs
  end.

Record DataFrame : Type := mkFrame {
  index : list Z;                  (* the dates, as day numbers *)
  columns : gmap string Column
}.

(** [df.empty]: some axis has length 0. *)
Definition is_empty (df : DataFrame) : bool :=
  match index df with
  | [] => true
  | _ => (size (columns df) =? 0)%nat
  end.

Definition set_column (name : string) (xs : list F) (df : DataFrame) : DataFrame :=
  mkFrame (index df) (<[name := FloatCol xs]> (columns df)).

(** References are store addresses; the store maps them to frames. *)
Abbreviation ref := positive.
Abbreviation heap := (gmap positive DataFrame).

Inductive Exn : Type :=
  | KeyError (key : string)
  | IndexError
  | TypeError
  | ValueError
  | OverflowError
  | DanglingRef (r : ref).       (* never raised on a store that holds [r] *)

Inductive Outcome (A : Type) : Type :=
  | Raise (e : Exn)
  | Return (a : A) (σ : heap).
Global Arguments Raise {A} e.
Global Arguments Return {A} a σ.

Definition M (A : Type) : Type := heap → Outcome A.

Definition ret {A} (a : A) : M A := λ σ, Return a σ.
Definition raise {A} (e : Exn) : M A := λ _, Raise e.
Definition bind {A B} (m : M A) (k : A → M B) : M B :=
  λ σ, match m σ with
       | Raise e => Raise e
       | Return a σ' => k a σ'
       end.

Notation "x <- m ;; k" := (bind m (λ x, k))
  (at level 100, m at next level, right associativity).
Notation "m ;;; k" := (bind m (λ _, k))
  (at level 100, right associativity).

Definition deref (r : ref) : M DataFrame :=
  λ σ, match σ !! r with
       | Some df => Return df σ
       | None => Raise (DanglingRef r)
       end.

(** [df.empty] *)
Definition empty (r : ref) : M bool :=
  df <- deref r ;; ret (is_empty df).

(** [df[name]] *)
Definition getitem (r : ref) (name : string) : M (list F) :=
  df <- deref r ;;
  match columns df !! name with
  | Some c => ret (values c)
  | None => raise (KeyError name)
  end.

(** [df[name] = series]: the frame behind [r] is updated in place. *)
Definition setitem (r : ref) (name : string) (xs : list F) : M unit :=
  df <- deref r ;;
  λ σ, Return tt (<[r := set_column name xs df]> σ).

(** [name in df.columns] *)
Definition has_column (r : ref) (name : string) : M bool :=
  df <- deref r ;; ret (bool_decide (is_Some (columns df !! name))).

(** [series.iloc[i]], negative positions counting from the end. *)
Definition iloc (xs : list F) (i : Z) : M F :=
  let n := Z.of_nat (length xs) in
  let j := if (i <? 0)%Z then (n + i)%Z else i in
  if (j <? 0)%Z then raise IndexError
  else match xs !! Z.to_nat j with
       | Some x => ret x
       | None => raise IndexError
       end.

(** ** [calculate_metrics] *)

Definition calculate_metrics (df : ref) : M (option ref) :=
  e <- empty df ;;
  if e then ret None
  else
    close <- getitem df "Close" ;;
    setitem df "Daily_Return" (pct_change close) ;;;
    daily <- getitem df "Daily_Return" ;;
    setitem df "Cumulative_Return"
      (sub_scalar (cumprod (radd_scalar one daily)) one) ;;;
    close <- getitem df "Close" ;;
    setitem df "MA_20" (rolling_mean 20 close) ;;;
    close <- getitem df "Close" ;;
    setitem df "MA_50" (rolling_mean 50 close) ;;;
    close <- getitem df "Close" ;;
    setitem df "MA_200" (rolling_mean 200 close) ;;;
    daily <- getitem df "Daily_Return" ;;
    setitem df "Volatility"
      (mul_scalar (rolling_std 20 daily) (fsqrt (f_of_Z 252))) ;;;
    ret (Some df).

(** ** The info dictionary

    [stock.info] is a dictionary decoded from the provider's JSON answer:
    a field holds [None], a boolean, an integer, a float, a string, or a
    list or dictionary. *)

Inductive PyVal : Type :=
  | PyNone
  | PyBool (b : bool)
  | PyInt (z : Z)
  | PyFloat (x : F)
  | PyStr (s : string)
  | PyContainer.                 (* a list or a dictionary *)

Abbreviation Info := (gmap string PyVal).

(** ** [display_key_metrics]

    The four numbers handed to [st.metric]; the [:.2f] formatting of the
    labels is not modelled. *)

Record KeyMetrics : Type := mkKeyMetrics {
  current_price : F;
  price_change_pct : F;
  total_return : F;              (* in percent, shown with a "%" sign *)
  avg_volume : F;
  volatility : F                 (* in percent *)
}.

Definition hundred : F := f_of_Z 100.

Definition display_key_metrics (df : ref) (info : option Info)
    : M KeyMetrics :=
  close <- getitem df "Close" ;;
  last <- iloc close (-1) ;;
  current_price <- ret last ;;
  last <- iloc close (-1) ;;
  before <- iloc close (-2) ;;
  price_change <- ret (fsub last before) ;;
  before <- iloc close (-2) ;;
  price_change_pct <- ret (fmul (fdiv price_change before) hundred) ;;
  last <- iloc close (-1) ;;
  first <- iloc close 0 ;;
  first' <- iloc close 0 ;;
  total_return <- ret (fmul (fdiv (fsub last first) first') hundred) ;;
  volume <- getitem df "Volume" ;;
  avg_volume <- ret (series_mean volume) ;;
  has <- has_column df "Volatility" ;;
  volatility <-
    (if has : bool then
       vol <- getitem df "Volatility" ;;
       v <- iloc vol (-1) ;;
       ret (fmul v hundred)
     else ret zero) ;;
  ret (mkKeyMetrics current_price price_change_pct total_return
         avg_volume volatility).

(** ** The statistical summary (the [summary_stats] table) *)

Definition min_of (obs : list F) : F :=
  match obs with
  | [] => nan
  | x :: rest => foldl (λ m y, if fleb y m then y else m) x rest
  end.

Definition max_of (obs : list F) : F :=
  match obs with
  | [] => nan
  | x :: rest => foldl (λ m y, if fleb m y then y else m) x rest
  end.

Record SummaryStats : Type := mkSummary {
  mean_return : F;               (* in percent *)
  std_deviation : F;             (* in percent *)
  min_return : F;                (* in percent *)
  max_return : F;                (* in percent *)
  sharpe_approx : F
}.

Definition summary_stats (df : ref) : M SummaryStats :=
  daily <- getitem df "Daily_Return" ;;
  ret (mkSummary
         (fmul (series_mean daily) hundred)
         (fmul (series_std daily) hundred)
         (fmul (min_of (dropna daily)) hundred)
         (fmul (max_of (dropna daily)) hundred)
         (fmul (fdiv (series_mean daily) (series_std daily))
               (fsqrt (f_of_Z 252)))).

(** ** The charts

    A plotly figure is what the program puts into it: the sub-plot titles
    and the traces, in the order of the [add_trace] calls, each with the
    data it is given and the sub-plot row it goes to.  Layout settings
    (sizes, templates, axis titles) are constants of the program and are
    left out. *)

Inductive Trace : Type :=
  | Candlestick (x : list Z) (opens highs lows closes : list F)
      (name : string) (row : nat)
  | Scatter (x : list Z) (y : list F) (name color : string) (row : nat)
  | BarTrace (x : list Z) (y : list F) (name : string)
      (marker_color : list string) (row : nat)
  | Histogram (x : list F) (name color : string) (nbinsx : nat) (row : nat).

Record Figure : Type := mkFigure {
  titles : list string;
  traces : list Trace
}.

(** [df.index] *)
Definition get_index (r : positive) : M (list Z) :=
  df <- deref r ;; ret (index df).

(** [a < b] on float64: [a <= b] and not [b <= a] (false when either is
    NaN). *)
Definition fltb (a b : F) : bool := fleb a b && negb (fleb b a).

(** The [colors] and [names] dictionaries of [create_price_chart], in
    insertion order. *)
Definition ma_styles : list (string * string * string) :=
  [("MA_20", "#FFA726", "20-day MA");
   ("MA_50", "#42A5F5", "50-day MA");
   ("MA_200", "#AB47BC", "200-day MA")].

(** The loop [for ma, color in colors.items(): if ma in df.columns: ...]. *)
Fixpoint add_ma_traces (df : positive) (styles : list (string * string * string))
    : M (list Trace) :=
  match styles with
  | [] => ret []
  | (ma, color, name) :: rest =>
      has <- has_column df ma ;;
      added <-
        (if has : bool then
           x <- get_index df ;;
           y <- getitem df ma ;;
           ret [Scatter x y name color 1]
         else ret []) ;;
      more <- add_ma_traces df rest ;;
      ret (added ++ more)
  end.

(** One colour per row: red when the close is below the open. *)
Definition volume_colors (closes opens : list F) : list string :=
  zip_with (λ c o, if fltb c o then "#ef5350" else "#26a69a") closes opens.

Definition create_price_chart (df : positive) (ticker : string) (show_ma : bool)
    : M Figure :=
  x <- get_index df ;;
  opens <- getitem df "Open" ;;
  highs <- getitem df "High" ;;
  lows <- getitem df "Low" ;;
  closes <- getitem df "Close" ;;
  candles <- ret (Candlestick x opens highs lows closes "Price" 1) ;;
  averages <- (if show_ma then add_ma_traces df ma_styles else ret []) ;;
  row_closes <- getitem df "Close" ;;
  row_opens <- getitem df "Open" ;;
  colors <- ret (volume_colors row_closes row_opens) ;;
  x <- get_index df ;;
  volumes <- getitem df "Volume" ;;
  ret (mkFigure [ticker +:+ " Stock Price"; "Volume"]
         ([candles] ++ averages ++ [BarTrace x volumes "Volume" colors 2])).

Definition create_returns_chart (df : positive) (ticker : string)
    : M Figure :=
  x <- get_index df ;;
  cumulative <- getitem df "Cumulative_Return" ;;
  daily <- getitem df "Daily_Return" ;;
  ret (mkFigure [ticker +:+ " Cumulative Returns"; "Daily Returns Distribution"]
         [Scatter x (mul_scalar cumulative hundred) "Cumulative Return"
            "#1f77b4" 1;
          Histogram (mul_scalar daily hundred) "Daily Returns" "#ff7f0e" 50 2]).

Definition create_volatility_chart (df : positive) (ticker : string)
    : M Figure :=
  x <- get_index df ;;
  vol <- getitem df "Volatility" ;;
  ret (mkFigure [ticker +:+ " Rolling Volatility (20-day)"]
         [Scatter x (mul_scalar vol hundred) "20-day Volatility" "#d62728" 1]).

(** The points a line trace draws. *)
Definition scatter_y (t : Trace) : list F :=
  match t with
  | Scatter _ y _ _ _ => y
  | _ => []
  end.

(** ** [display_company_info]

    Up to eight lines, one for each field that is present, in the order of
    the [st.write] calls.  A text line shows the field as [str] prints it,
    which works for every value.  The three money lines do arithmetic or
    number formatting on the field and raise when it is not a number; the
    text of the formatted number ([:.2f]) is not modelled, the number that is
    formatted is. *)

(** An [int] converts to a float unless it rounds to an infinity, that is
    from [2^1024 - 2^970] on. *)
Definition int_fits (z : Z) : bool := (Z.abs z <? 2 ^ 1024 - 2 ^ 970)%Z.

Definition float_of_int (z : Z) : M F :=
  if int_fits z then ret (f_of_Z z) else raise OverflowError.

Definition float_of_bool (b : bool) : F := f_of_Z (if b then 1 else 0).

Definition one_e_9 : F := f_of_Z 1000000000.

(** [v / 1e9] *)
Definition truediv_1e9 (v : PyVal) : M F :=
  match v with
  | PyFloat x => ret (fdiv x one_e_9)
  | PyInt z => x <- float_of_int z ;; ret (fdiv x one_e_9)
  | PyBool b => ret (fdiv (float_of_bool b) one_e_9)
  | PyNone | PyStr _ | PyContainer => raise TypeError
  end.

(** [f"{v:.2f}"]: the number that is formatted.  A string does not know
    the format code [f] ([ValueError]); [None], lists and dictionaries
    accept no format string at all ([TypeError]). *)
Definition format_2f (v : PyVal) : M F :=
  match v with
  | PyFloat x => ret x
  | PyInt z => float_of_int z
  | PyBool b => ret (float_of_bool b)
  | PyStr _ => raise ValueError
  | PyNone | PyContainer => raise TypeError
  end.

Inductive InfoLine : Type :=
  | TextLine (label : string) (v : PyVal)
  | MoneyLine (label : string) (x : F).

(** [if key in info: st.write(f"**label:** {info.get(key, 'N/A')}")] *)
Definition text_line (info : Info) (key label : string) : list InfoLine :=
  match info !! key with
  | Some v => [TextLine label v]
  | None => []
  end.

Definition money_line (info : Info) (key label : string)
    (number : PyVal → M F) : M (list InfoLine) :=
  match info !! key with
  | Some v => x <- number v ;; ret [MoneyLine label x]
  | None => ret []
  end.

Definition display_company_info (info : Info) : M (list InfoLine) :=
  name <- ret (text_line info "longName" "Company Name") ;;
  sector <- ret (text_line info "sector" "Sector") ;;
  industry <- ret (text_line info "industry" "Industry") ;;
  country <- ret (text_line info "country" "Country") ;;
  cap <- money_line info "marketCap" "Market Cap" truediv_1e9 ;;
  high <- money_line info "fiftyTwoWeekHigh" "52 Week High" format_2f ;;
  low <- money_line info "fiftyTwoWeekLow" "52 Week Low" format_2f ;;
  beta <- ret (text_line info "beta" "Beta") ;;
  ret (name ++ sector ++ industry ++ country ++ cap ++ high ++ low ++ beta).

(** The fields [display_company_info] computes with, and the values it can
    compute with. *)
Definition number_fields : list string :=
  ["marketCap"; "fiftyTwoWeekHigh"; "fiftyTwoWeekLow"].

Definition is_number (v : PyVal) : bool :=
  match v with
  | PyFloat _ | PyBool _ => true
  | PyInt z => int_fits z
  | PyNone | PyStr _ | PyContainer => false
  end.

(** Every number field that is present holds a number. *)
Definition numbers_ok (info : Info) : bool :=
  forallb (λ key, from_option is_number true (info !! key)) number_fields.

(** ** Fetching and the main application logic

    yfinance is outside the program: a call either raises or returns a
    history frame and an info dictionary.  [get_stock_data] swallows every
    exception, whatever its cause, and returns [None, None, None]. *)

Inductive Cause : Type :=
  | NoSuchInstrument
  | ProviderUnreachable.

Inductive Fetch : Type :=
  | FetchRaises (why : Cause)
  | FetchReturns (hist : DataFrame) (info : Info).

Definition Provider : Type := string → string → Fetch.

Definition get_stock_data (yf : Provider) (ticker period : string)
    : option string * option DataFrame * option Info :=
  match yf ticker period with
  | FetchReturns hist info => (Some ticker, Some hist, Some info)
  | FetchRaises _ => (None, None, None)
  end.

(** What the page shows, top to bottom.  A chart widget holds the figure
    handed to [st.plotly_chart]; the download button names the frame whose
    CSV text it offers and the file name (the text [to_csv] writes is not
    modelled).  Headings, dividers and the spinner are constants of the
    script and are left out. *)
Inductive Widget : Type :=
  | StError (msg : string)
  | StInfo (msg : string)
  | StWarning (msg : string)
  | CompanyInfo (lines : list InfoLine)
  | KeyMetricsPanel (km : KeyMetrics)
  | PriceChart (fig : Figure)
  | ReturnsChart (fig : Figure)
  | VolatilityChart (fig : Figure)
  | SummaryTable (stats : SummaryStats)
  | DownloadButton (df : ref) (file_name : string).

Definition unable_to_fetch (ticker_input : string) : string :=
  "❌ Unable to fetch data for '" +:+ ticker_input
    +:+ "'. Please check the ticker symbol and try again.".

Definition tip : string :=
  "💡 **Tip:** Try using the official stock ticker symbol (e.g., AAPL for Apple, MSFT for Microsoft)".

Definition please_enter : string :=
  "⚠️ Please enter a stock ticker or company name to begin analysis.".

(** A string is truthy when it is not empty. *)
Definition truthy (s : string) : bool :=
  match s with EmptyString => false | _ => true end.

(** [str.upper()] on the letters a to z.  Python also maps letters outside
    ASCII, which this leaves as they are; the result is only ever handed to
    the provider, and every property below holds for every provider. *)
Definition upper_ascii (c : Ascii.ascii) : Ascii.ascii :=
  let n := Ascii.nat_of_ascii c in
  if ((97 <=? n) && (n <=? 122))%nat then Ascii.ascii_of_nat (n - 32) else c.

Fixpoint upper (s : string) : string :=
  match s with
  | EmptyString => EmptyString
  | String c rest => String (upper_ascii c) (upper rest)
  end.

(** A frame object created outside the script enters the store. *)
Definition alloc (df : DataFrame) : M ref :=
  λ σ, let r := fresh (dom σ) in Return r (<[r := df]> σ).

Definition analysis (ticker_input time_period : string)
    (show_ma show_returns : bool)
    (hist : DataFrame) (stock_info : option Info) : M (list Widget) :=
  hist_data <- alloc hist ;;
  enriched <- calculate_metrics hist_data ;;
  match enriched with
  | None => raise TypeError      (* [None['Close']] *)
  | Some hist_data =>
      company <-
        match stock_info with
        | Some info =>
            if (size info =? 0)%nat then ret []
            else lines <- display_company_info info ;; ret [CompanyInfo lines]
        | None => ret []
        end ;;
      km <- display_key_metrics hist_data stock_info ;;
      price_fig <- create_price_chart hist_data (upper ticker_input) show_ma ;;
      returns <-
        (if show_returns then
           returns_fig <- create_returns_chart hist_data (upper ticker_input) ;;
           ret [ReturnsChart returns_fig]
         else ret []) ;;
      volatility <-
        (if show_returns then
           volatility_fig <-
             create_volatility_chart hist_data (upper ticker_input) ;;
           stats <- summary_stats hist_data ;;
           ret [VolatilityChart volatility_fig; SummaryTable stats]
         else ret []) ;;
      ret (company ++ [KeyMetricsPanel km; PriceChart price_fig]
             ++ returns ++ volatility
             ++ [DownloadButton hist_data
                   (ticker_input +:+ "_" +:+ time_period +:+ "_data.csv")])
  end.

Definition main (yf : Provider) (analyze_button : bool)
    (ticker_input time_period : string) (show_ma show_returns : bool)
    : M (list Widget) :=
  if analyze_button && truthy ticker_input then
    match get_stock_data yf (upper ticker_input) time_period with
    | (_, Some hist_data, stock_info) =>
        if negb (is_empty hist_data) then
          analysis ticker_input time_period show_ma show_returns hist_data
            stock_info
        else ret [StError (unable_to_fetch ticker_input); StInfo tip]
    | (_, None, _) =>
        ret [StError (unable_to_fetch ticker_input); StInfo tip]
    end
  else if analyze_button && negb (truthy ticker_input) then
    ret [StWarning please_enter]
  else ret [].

(** ** Bars: the rows the loader yields

    One row per trading day; the history frame has the date index and the
    columns Open, High, Low, Close (float64) and Volume (int64). *)

Record Bar : Type := mkBar {
  date : Z;
  open : F;
  high : F;
  low : F;
  close : F;
  volume : Z
}.

Definition frame_of_bars (bars : list Bar) : DataFrame :=
  mkFrame (date <$> bars)
    (<["Open" := FloatCol (open <$> bars)]>
     (<["High" := FloatCol (high <$> bars)]>
      (<["Low" := FloatCol (low <$> bars)]>
       (<["Close" := FloatCol (close <$> bars)]>
        (<["Volume" := IntCol (volume <$> bars)]> ∅))))).

(** The columns of a frame after [calculate_metrics], given the values of
    its Close column: the six assignments, in program order. *)
Definition enriched_columns (close : list F) (cols : gmap string Column)
    : gmap string Column :=
  let daily := pct_change close in
  <["Volatility" :=
      FloatCol (mul_scalar (rolling_std 20 daily) (fsqrt (f_of_Z 252)))]>
  (<["MA_200" := FloatCol (rolling_mean 200 close)]>
   (<["MA_50" := FloatCol (rolling_mean 50 close)]>
    (<["MA_20" := FloatCol (rolling_mean 20 close)]>
     (<["Cumulative_Return" :=
          FloatCol (sub_scalar (cumprod (radd_scalar one daily)) one)]>
      (<["Daily_Return" := FloatCol daily]> cols))))).

(** The failure reasons the specification names, read off a submitted
    request and what yfinance answered: a blank ticker; an exception
    because the instrument does not exist; an exception because the
    provider cannot be reached; a history without rows. *)
Inductive FailReason : Type :=
  | MissingInput
  | InvalidTicker
  | EmptyHistory
  | TransientFetchError.

Definition failure (ticker_input : string) (answer : Fetch)
    : option FailReason :=
  if truthy ticker_input then
    match answer with
    | FetchRaises NoSuchInstrument => Some InvalidTicker
    | FetchRaises ProviderUnreachable => Some TransientFetchError
    | FetchReturns hist _ =>
        if is_empty hist then Some EmptyHistory else None
    end
  else Some MissingInput.

(** The page of a failed request, by reason. *)
Definition failure_page (ticker_input : string) (why : FailReason)
    : list Widget :=
  match why with
  | MissingInput => [StWarning please_enter]
  | InvalidTicker | EmptyHistory | TransientFetchError =>
      [StError (unable_to_fetch ticker_input); StInfo tip]
  end.

(** Three providers: one that cannot be reached, one that knows no such
    instrument, one that answers with a history of no rows. *)
Definition unreachable : Provider := λ _ _, FetchRaises ProviderUnreachable.
Definition unknown_instrument : Provider := λ _ _, FetchRaises NoSuchInstrument.
Definition no_history : Provider := λ _ _, FetchReturns (frame_of_bars []) ∅.

(** Bars with the given closes (open = high = low = close), dated 0, 1,
    2, ...: sample inputs. *)
Definition flat_bars (cs : list F) : list Bar :=
  imap (λ i c, mkBar (Z.of_nat i) c c c c 1000) cs.

(** The moving-average columns and their window lengths. *)
Definition ma_columns : list (nat * string) :=
  [(20%nat, "MA_20"); (50%nat, "MA_50"); (200%nat, "MA_200")].

(** The frame of a bar sequence after [calculate_metrics]. *)
Definition enriched (bars : list Bar) : DataFrame :=
  mkFrame (date <$> bars)
    (enriched_columns (close <$> bars) (columns (frame_of_bars bars))).

(** Reading a column of the frame behind a reference. *)
Definition column (σ : heap) (r : ref) (name : string) : option (list F) :=
  df ← σ !! r; c ← columns df !! name; Some (values c).

Definition raw_column (σ : heap) (r : ref) (name : string) : option Column :=
  df ← σ !! r; columns df !! name.

Definition index_of (σ : heap) (r : ref) : option (list Z) :=
  index <$> σ !! r.

(** The tolerance [1e-9]. *)
Definition one_e_minus_9 : F := fdiv (f_of_Z 1) (f_of_Z 1000000000).

(** [|a - b| <= tol * |b|]: [a] matches the reference value [b] within the
    relative tolerance [tol]. *)
Definition within_rel_tol (tol a b : F) : bool :=
  fleb (fabs (fsub a b)) (fmul tol (fabs b)).

End Pandas.

Arguments DataFrame F : clear implicits.
Arguments Column F : clear implicits.
Arguments Bar F : clear implicits.
Arguments M F A : clear implicits.
Arguments Outcome F A : clear implicits.
Arguments KeyMetrics F : clear implicits.
Arguments SummaryStats F : clear implicits.
Arguments Widget F : clear implicits.
Arguments Trace F : clear implicits.
Arguments Figure F : clear implicits.
Arguments PyVal F : clear implicits.
Arguments InfoLine F : clear implicits.
Arguments Fetch F : clear implicits.
Arguments Provider F : clear implicits.
Arguments unreachable F : clear implicits.
Arguments unknown_instrument F : clear implicits.
Arguments no_history F : clear implicits.

Abbreviation ref := positive.
Abbreviation heap F := (gmap positive (DataFrame F)).
Abbreviation Info F := (gmap string (PyVal F)).

(** ** The vocabulary of the specification, over the reals *)

Module Spec.
Local Open Scope R_scope.

(** The simple returns [c_i / c_(i-1) - 1] of the closes that follow a
    close [p]. *)
Fixpoint returns_after (p : R) (cs : list R) : list R :=
  match cs with
  | [] => []
  | c :: rest => (c / p - 1) :: returns_after c rest
  end.

Definition sum (xs : list R) : R := foldr Rplus 0 xs.

(** Arithmetic mean. *)
Definition mean (xs : list R) : R := sum xs / INR (length xs).

(** Sample standard deviation (divisor [n - 1]). *)
Definition sample_std (xs : list R) : R :=
  R_sqrt.sqrt
    (sum ((λ x, (x - mean xs) * (x - mean xs)) <$> xs)
       / (INR (length xs) - 1)).

(** [xs[lo .. lo + n - 1]] is the list [win]. *)
Definition slice_is {A} (xs : list A) (lo n : nat) (win : list A) : Prop :=
  length win = n ∧ ∀ j, (j < n)%nat → win !! j = xs !! (lo + j)%nat.
End Spec.

(** ** Sample inputs *)

Module Samples.
Local Open Scope R_scope.

(** Two days: 100, then 110. *)
Definition two_closes : list R := [100; 110].
Definition two_bars : list (Bar xreal) := flat_bars (Fin <$> two_closes).

(** Twenty-two days rising by one: 101, 102, ..., 122. *)
Definition rising_closes : list R :=
  [101; 102; 103; 104; 105; 106; 107; 108; 109; 110; 111;
   112; 113; 114; 115; 116; 117; 118; 119; 120; 121; 122].
Definition rising_bars : list (Bar xreal) := flat_bars (Fin <$> rising_closes).

(** Thirty days at 50. *)
Definition constant_bars : list (Bar xreal) := flat_bars (replicate 30 (Fin 50)).

(** Binary64 closes 100, 100.5 and 100.000001 (the double nearest to it):
    the price ends one millionth of a dollar above where it started. *)
Definition drifting_closes : list float :=
  [100; 100.5; 0x1.900000431bde8p+6]%float.

(** Binary64 closes 11, 12, 11: the price returns to its first close. *)
Definition returning_closes : list float := [11; 12; 11]%float.

(** Twenty-two binary64 closes, the second of them zero. *)
Definition zero_close_closes : list float := (1 :: 0 :: replicate 20 1)%float.

(** Twenty-two positive binary64 closes: 1, 2^-600, 2^600, then 1 for
    nineteen days.  The quotient of the third by the second is 2^1200, which
    binary64 cannot hold. *)
Definition overflowing_closes : list float :=
  (1 :: 0x1p-600 :: 0x1p+600 :: replicate 19 1)%float.

(** An info dictionary with a name and numbers, and the same dictionary
    with a market capitalisation that is [None]. *)
Definition acme_info : Info xreal :=
  <["longName" := PyStr "Acme"]>
    (<["marketCap" := PyInt 2500000000]>
       (<["fiftyTwoWeekHigh" := PyFloat (Fin 120)]> ∅)).

Definition capless_info : Info xreal := <["marketCap" := PyNone]> acme_info.

(** Providers that answer with that information: one with a single day at
    100, two with the two days above. *)
Definition one_day_acme : Provider xreal :=
  λ _ _, FetchReturns (frame_of_bars (flat_bars [Fin 100])) acme_info.

Definition two_days_acme : Provider xreal :=
  λ _ _, FetchReturns (frame_of_bars two_bars) acme_info.

Definition two_days_capless : Provider xreal :=
  λ _ _, FetchReturns (frame_of_bars two_bars) capless_info.

(** A frame of one row that has an Open column only. *)
Definition open_only_frame : DataFrame xreal :=
  mkFrame [0%Z] (<["Open" := FloatCol [Fin 100]]> ∅).

(** A frame of two rows that has a Close column only. *)
Definition close_only_frame : DataFrame xreal :=
  mkFrame [0%Z; 1%Z] (<["Close" := FloatCol [Fin 100; Fin 110]]> ∅).
End Samples.

(** * Properties *)

(** ** Running [calculate_metrics]: facts that hold for every arithmetic *)

Section Run.
Context {F : Type} `{!Float64 F}.
Implicit Types (σ : heap F) (df : DataFrame F) (l : ref).

Lemma is_empty_false df name c :
  index df ≠ [] → columns df !! name = Some c → is_empty df = false.
Proof.
  intros Hi Hc. unfold is_empty. destruct (index df) as [|d ds]; [done|].
  apply Nat.eqb_neq. intros Hs. apply map_size_empty_inv in Hs.
  rewrite Hs in Hc. by rewrite lookup_empty in Hc.
Qed.

Lemma calculate_metrics_empty σ l df :
  σ !! l = Some df → is_empty df = true →
  calculate_metrics l σ = Return None σ.
Proof.
  intros Hl He. unfold calculate_metrics, empty, deref, ret, bind.
  by rewrite Hl, He.
Qed.

Lemma calculate_metrics_run σ l df c :
  σ !! l = Some df → index df ≠ [] → columns df !! "Close" = Some c →
  calculate_metrics l σ =
    Return (Some l)
      (<[l := mkFrame (index df) (enriched_columns (values c) (columns df))]> σ).
Proof.
  intros Hl Hi Hc.
  unfold calculate_metrics, empty, getitem, setitem, deref, ret,
    set_column, bind.
  repeat first
    [ rewrite Hl | rewrite Hc | rewrite (is_empty_false df "Close" c Hi Hc)
    | rewrite lookup_insert_eq | rewrite insert_insert_eq
    | rewrite lookup_insert_ne by done
    | progress cbn [index columns values] | progress cbv beta iota ].
  reflexivity.
Qed.
End Run.

(** ** Row count, ordering and the frame (any arithmetic) *)

Section Shape.
Context {F : Type} `{!Float64 F}.
Implicit Types (σ : heap F) (df : DataFrame F) (l : ref) (xs : list F).

Lemma length_shift1 xs : length (shift1 xs) = length xs.
Proof. unfold shift1. rewrite length_take. simpl. lia. Qed.

Lemma length_pct_change xs : length (pct_change xs) = length xs.
Proof. unfold pct_change. rewrite length_zip_with, length_shift1. lia. Qed.

Lemma length_cumprod_from acc xs : length (cumprod_from acc xs) = length xs.
Proof. revert acc. induction xs as [|x xs IH]; intros acc; simpl; [done|]. by rewrite IH. Qed.

Lemma length_np_cumprod xs : length (np_cumprod xs) = length xs.
Proof. destruct xs; simpl; [done|]. by rewrite length_cumprod_from. Qed.

Lemma length_cumprod xs : length (cumprod xs) = length xs.
Proof.
  unfold cumprod. rewrite length_zip_with, length_np_cumprod, length_fmap. lia.
Qed.

Lemma length_rolling w agg xs : length (rolling w agg xs) = length xs.
Proof. unfold rolling. by rewrite length_fmap, length_seq. Qed.

Lemma length_values_frame (bars : list (Bar F)) name c :
  columns (frame_of_bars bars) !! name = Some c →
  length (values c) = length bars.
Proof.
  unfold frame_of_bars. simpl. intros Hc.
  repeat (apply lookup_insert_Some in Hc as [[_ <-]|[_ Hc]];
          [simpl; by rewrite ?length_fmap|]).
  by rewrite lookup_empty in Hc.
Qed.

Lemma enriched_lookup_length close cols name c n :
  length close = n →
  (∀ c', cols !! name = Some c' → length (values c') = n) →
  enriched_columns close cols !! name = Some c →
  length (values c) = n.
Proof.
  intros Hn Hcols. unfold enriched_columns. intros Hc.
  repeat (apply lookup_insert_Some in Hc as [[_ <-]|[_ Hc]];
          [simpl; unfold sub_scalar, mul_scalar, radd_scalar,
             rolling_mean, rolling_std;
           by rewrite ?length_fmap, ?length_cumprod, ?length_fmap,
             ?length_rolling, ?length_pct_change|]).
  by apply Hcols.
Qed.

Lemma frame_close (bars : list (Bar F)) :
  columns (frame_of_bars bars) !! "Close" = Some (FloatCol (close <$> bars)).
Proof. unfold frame_of_bars. simpl. by repeat (rewrite lookup_insert_ne by done); rewrite lookup_insert_eq. Qed.

Lemma frame_index_nonempty (bars : list (Bar F)) :
  bars ≠ [] → index (frame_of_bars bars) ≠ [].
Proof. by destruct bars. Qed.

(** The run of [calculate_metrics] on the frame of a non-empty bar
    sequence, in closed form. *)
Lemma calculate_metrics_bars σ l (bars : list (Bar F)) :
  bars ≠ [] →
  calculate_metrics l (<[l := frame_of_bars bars]> σ) =
    Return (Some l) (<[l := enriched bars]> σ).
Proof.
  intros Hne. unfold enriched.
  rewrite (calculate_metrics_run _ l (frame_of_bars bars)
             (FloatCol (close <$> bars)));
    [ by rewrite insert_insert_eq
    | apply lookup_insert_eq
    | by apply frame_index_nonempty
    | apply frame_close ].
Qed.

Lemma enriched_column σ l (bars : list (Bar F)) :
  let σ' := <[l := enriched bars]> σ in
  let closes := close <$> bars in
  let daily := pct_change closes in
  column σ' l "Daily_Return" = Some daily
  ∧ column σ' l "Cumulative_Return"
      = Some (sub_scalar (cumprod (radd_scalar one daily)) one)
  ∧ column σ' l "MA_20" = Some (rolling_mean 20 closes)
  ∧ column σ' l "MA_50" = Some (rolling_mean 50 closes)
  ∧ column σ' l "MA_200" = Some (rolling_mean 200 closes)
  ∧ column σ' l "Volatility"
      = Some (mul_scalar (rolling_std 20 daily) (fsqrt (f_of_Z 252)))
  ∧ column σ' l "Close" = Some closes
  ∧ column σ' l "Volume" = Some (f_of_Z <$> (volume <$> bars)).
Proof.
  cbv zeta. unfold column, enriched, enriched_columns, frame_of_bars.
  rewrite lookup_insert_eq. simpl.
  repeat split;
    repeat (rewrite lookup_insert_ne by done); by rewrite lookup_insert_eq.
Qed.

Lemma pct_change_lookup xs i c p :
  xs !! S i = Some c → xs !! i = Some p →
  pct_change xs !! S i = Some (fsub (fdiv c p) one).
Proof.
  intros Hc Hp. unfold pct_change, shift1.
  rewrite lookup_zip_with, Hc. simpl.
  rewrite lookup_take_lt by (by apply lookup_lt_Some in Hc).
  simpl. by rewrite Hp.
Qed.

(** X2. Whatever the arithmetic (binary64 included, bit for bit), row
    [i + 1] of Daily_Return is [close[i+1] / close[i] - 1], computed as one
    division followed by one subtraction, when neither close is missing. *)
Theorem X2_daily_return_any_arithmetic σ l (bars : list (Bar F)) i c p :
  (close <$> bars) !! S i = Some c →
  (close <$> bars) !! i = Some p →
  isnan c = false → isnan p = false →
  ∃ σ' daily,
    calculate_metrics l (<[l := frame_of_bars bars]> σ) = Return (Some l) σ'
    ∧ column σ' l "Daily_Return" = Some daily
    ∧ daily !! S i = Some (fsub (fdiv c p) one).
Proof.
  intros Hc Hp _ _.
  assert (bars ≠ []) as Hne by (intros ->; done).
  eexists _, _. split; [by apply calculate_metrics_bars|].
  split; [apply enriched_column|]. by apply pct_change_lookup.
Qed.

(** C1. For every non-empty bar sequence with strictly ascending dates,
    [calculate_metrics] returns the frame with the same date index (same
    rows, same order, still strictly ascending), and every column of the
    returned frame, raw or derived, has exactly one value per input row. *)
Theorem C1_rows_and_order_preserved σ l (bars : list (Bar F)) :
  bars ≠ [] →
  StronglySorted Z.lt (date <$> bars) →
  ∃ σ', calculate_metrics l (<[l := frame_of_bars bars]> σ)
          = Return (Some l) σ'
    ∧ index_of σ' l = Some (date <$> bars)
    ∧ (∀ idx, index_of σ' l = Some idx →
         length idx = length bars ∧ StronglySorted Z.lt idx)
    ∧ (∀ name xs, column σ' l name = Some xs → length xs = length bars).
Proof.
  intros Hne Hsorted. eexists. split; [by apply calculate_metrics_bars|].
  unfold index_of, column, enriched. rewrite lookup_insert_eq. simpl.
  split; [done|]. split.
  - intros idx [= <-]. by rewrite length_fmap.
  - intros name xs Hx.
    destruct (enriched_columns _ _ !! name) as [c|] eqn:Hc; [|done].
    simpl in Hx. injection Hx as <-.
    apply (enriched_lookup_length (close <$> bars) _ name c (length bars)
             (length_fmap _ _) (length_values_frame bars name) Hc).
Qed.

(** C6. On the empty bar sequence [calculate_metrics] returns [None], the
    explicit "no data" result: it raises nothing and leaves the frame as it
    was, without any derived column. *)
Theorem C6_empty_returns_no_data σ l :
  calculate_metrics l (<[l := frame_of_bars (F:=F) []]> σ)
    = Return None (<[l := frame_of_bars []]> σ).
Proof.
  apply (calculate_metrics_empty _ l (frame_of_bars [])); [|done].
  apply lookup_insert_eq.
Qed.

(** C10. For every non-empty bar sequence [calculate_metrics] returns the
    very reference it was given; the frame behind it now carries the six
    derived columns, its date index and the raw columns Open, High, Low,
    Close and Volume are what they were, and no other frame of the store
    is touched. *)
Theorem C10_in_place_augmentation σ l (bars : list (Bar F)) :
  bars ≠ [] →
  ∃ σ', calculate_metrics l (<[l := frame_of_bars bars]> σ)
          = Return (Some l) σ'
    ∧ (∀ l', l' ≠ l → σ' !! l' = σ !! l')
    ∧ Forall (λ name, is_Some (column σ' l name))
        ["Daily_Return"; "Cumulative_Return"; "MA_20"; "MA_50"; "MA_200";
         "Volatility"]
    ∧ index_of σ' l = Some (date <$> bars)
    ∧ raw_column σ' l "Open" = Some (FloatCol (open <$> bars))
    ∧ raw_column σ' l "High" = Some (FloatCol (high <$> bars))
    ∧ raw_column σ' l "Low" = Some (FloatCol (low <$> bars))
    ∧ raw_column σ' l "Close" = Some (FloatCol (close <$> bars))
    ∧ raw_column σ' l "Volume" = Some (IntCol (volume <$> bars)).
Proof.
  intros Hne. eexists. split; [by apply calculate_metrics_bars|].
  split; [intros l' Hl'; by rewrite lookup_insert_ne|].
  unfold index_of, column, raw_column, enriched. rewrite lookup_insert_eq.
  simpl. unfold enriched_columns, frame_of_bars. simpl.
  split.
  { repeat constructor;
      repeat (rewrite lookup_insert_ne by done); rewrite lookup_insert_eq;
      by eexists. }
  split; [done|].
  repeat split;
    repeat (rewrite lookup_insert_ne by done); by rewrite lookup_insert_eq.
Qed.
End Shape.

(** ** Reading the enriched frame (any arithmetic) *)

Section Reading.
Context {F : Type} `{!Float64 F}.
Implicit Types (σ : heap F) (l : ref) (xs : list F).

Lemma bind_return {A B} (m : M F A) (k : A → M F B) σ a σ' :
  m σ = Return a σ' → bind m k σ = k a σ'.
Proof. intros Hm. unfold bind. by rewrite Hm. Qed.

Lemma bind_bind {A B C} (m : M F A) (f : A → M F B) (g : B → M F C) σ :
  bind (bind m f) g σ = bind m (λ x, bind (f x) g) σ.
Proof. unfold bind. by destruct (m σ). Qed.

Lemma getitem_column σ l name xs :
  column σ l name = Some xs → getitem l name σ = Return xs σ.
Proof.
  unfold column, getitem, deref, bind. intros Hc.
  destruct (σ !! l) as [df|]; [|done]. simpl in *.
  destruct (columns df !! name) as [c|]; [|done]. simpl in *.
  by injection Hc as ->.
Qed.

Lemma has_column_present σ l name xs :
  column σ l name = Some xs → has_column l name σ = Return true σ.
Proof.
  unfold column, has_column, deref, bind, ret. intros Hc.
  destruct (σ !! l) as [df|]; [|done]. simpl in *.
  destruct (columns df !! name) as [c|] eqn:Hcol; [|done].
  by rewrite bool_decide_eq_true_2.
Qed.

Lemma iloc_first xs x σ : xs !! 0 = Some x → iloc xs 0 σ = Return x σ.
Proof.
  intros Hx. unfold iloc. cbn [Z.ltb Z.compare].
  change (Z.to_nat 0) with 0%nat. by rewrite Hx.
Qed.

Lemma iloc_from_end xs (k : nat) x σ :
  1 ≤ k ≤ length xs → xs !! (length xs - k) = Some x →
  iloc xs (- Z.of_nat k) σ = Return x σ.
Proof.
  intros Hk Hx. unfold iloc.
  rewrite (proj2 (Z.ltb_lt (- Z.of_nat k) 0)) by lia.
  rewrite (proj2 (Z.ltb_ge (Z.of_nat (length xs) + - Z.of_nat k) 0)) by lia.
  replace (Z.to_nat (Z.of_nat (length xs) + - Z.of_nat k))
    with (length xs - k) by lia.
  by rewrite Hx.
Qed.

Lemma iloc_last xs x σ :
  1 ≤ length xs → xs !! (length xs - 1) = Some x →
  iloc xs (-1) σ = Return x σ.
Proof. intros Hn Hx. apply (iloc_from_end xs 1 x σ); [lia|done]. Qed.

Lemma iloc_second_last xs x σ :
  2 ≤ length xs → xs !! (length xs - 2) = Some x →
  iloc xs (-2) σ = Return x σ.
Proof. intros Hn Hx. apply (iloc_from_end xs 2 x σ); [lia|done]. Qed.

(** [display_key_metrics] on a frame with at least two rows. *)
Lemma display_key_metrics_run σ l info closes volumes vols first before last v :
  column σ l "Close" = Some closes →
  column σ l "Volume" = Some volumes →
  column σ l "Volatility" = Some vols →
  2 ≤ length closes →
  closes !! 0 = Some first →
  closes !! (length closes - 2) = Some before →
  closes !! (length closes - 1) = Some last →
  vols !! (length vols - 1) = Some v → 1 ≤ length vols →
  display_key_metrics l info σ =
    Return
      (mkKeyMetrics last
         (fmul (fdiv (fsub last before) before) hundred)
         (fmul (fdiv (fsub last first) first) hundred)
         (series_mean volumes)
         (fmul v hundred)) σ.
Proof.
  intros Hclose Hvolume Hvol Hlen Hfirst Hbefore Hlast Hv Hvlen.
  unfold display_key_metrics.
  rewrite (bind_return _ _ _ _ _ (getitem_column _ _ _ _ Hclose)).
  assert (1 ≤ length closes) as Hlen1 by lia.
  repeat first
    [ rewrite (bind_return _ _ _ _ _ (iloc_last _ _ _ Hlen1 Hlast))
    | rewrite (bind_return _ _ _ _ _ (iloc_second_last _ _ _ Hlen Hbefore))
    | rewrite (bind_return _ _ _ _ _ (iloc_first _ _ _ Hfirst))
    | rewrite (bind_return _ _ _ _ _ (getitem_column _ _ _ _ Hvolume))
    | rewrite (bind_return _ _ _ _ _ (has_column_present _ _ _ _ Hvol))
    | rewrite (bind_return _ _ _ _ _ (getitem_column _ _ _ _ Hvol))
    | rewrite (bind_return _ _ _ _ _ (iloc_last _ _ _ Hvlen Hv))
    | rewrite (bind_return (ret _) _ _ _ _ eq_refl)
    | rewrite bind_bind ].
  reflexivity.
Qed.

Lemma summary_stats_run σ l daily :
  column σ l "Daily_Return" = Some daily →
  summary_stats l σ =
    Return
      (mkSummary
         (fmul (series_mean daily) hundred)
         (fmul (series_std daily) hundred)
         (fmul (min_of (dropna daily)) hundred)
         (fmul (max_of (dropna daily)) hundred)
         (fmul (fdiv (series_mean daily) (series_std daily))
            (fsqrt (f_of_Z 252)))) σ.
Proof.
  intros Hd. unfold summary_stats.
  by rewrite (bind_return _ _ _ _ _ (getitem_column _ _ _ _ Hd)).
Qed.
End Reading.

(** ** Failed requests (any arithmetic) *)

(** ** The company information *)

Section Company.
Context {F : Type} `{!Float64 F}.
Implicit Types (σ : heap F) (info : Info F) (v : PyVal F).

Lemma truediv_1e9_number v σ :
  is_number v = true → ∃ x, truediv_1e9 v σ = Return x σ.
Proof.
  destruct v as [|b|z|x|s|]; intros Hv; try discriminate Hv;
    unfold truediv_1e9, float_of_int, bind, ret; [eauto| |eauto].
  cbn [is_number] in Hv. rewrite Hv. eauto.
Qed.

Lemma format_2f_number v σ :
  is_number v = true → ∃ x, format_2f v σ = Return x σ.
Proof.
  destruct v as [|b|z|x|s|]; intros Hv; try discriminate Hv;
    unfold format_2f, float_of_int, ret; [eauto| |eauto].
  cbn [is_number] in Hv. rewrite Hv. eauto.
Qed.

Lemma truediv_1e9_not_number v σ :
  is_number v = false →
  truediv_1e9 v σ
  = Raise (match v with PyInt _ => OverflowError | _ => TypeError end).
Proof.
  destruct v as [|b|z|x|s|]; intros Hv; try discriminate Hv; try done.
  cbn [is_number] in Hv.
  unfold truediv_1e9, float_of_int, bind, raise. by rewrite Hv.
Qed.

Lemma format_2f_not_number v σ :
  is_number v = false →
  format_2f v σ
  = Raise (match v with
           | PyInt _ => OverflowError
           | PyStr _ => ValueError
           | _ => TypeError
           end).
Proof.
  destruct v as [|b|z|x|s|]; intros Hv; try discriminate Hv; try done.
  cbn [is_number] in Hv. unfold format_2f, float_of_int, raise. by rewrite Hv.
Qed.

Lemma money_line_ok info key label (number : PyVal F → M F F) σ :
  (∀ v, is_number v = true → ∃ x, number v σ = Return x σ) →
  from_option is_number true (info !! key) = true →
  ∃ line, money_line info key label number σ = Return line σ.
Proof.
  intros Hnumber Hkey. unfold money_line.
  destruct (info !! key) as [v|]; [|by eexists].
  destruct (Hnumber v Hkey) as [x Hx].
  eexists. by rewrite (bind_return _ _ _ _ _ Hx).
Qed.

Lemma money_line_fails info key label (number : PyVal F → M F F) σ v e :
  info !! key = Some v →
  number v σ = Raise e →
  money_line info key label number σ = Raise e.
Proof.
  intros Hkey He. unfold money_line. rewrite Hkey. unfold bind. by rewrite He.
Qed.

Lemma absent_or_number info key :
  from_option is_number true (info !! key) = false →
  ∃ v, info !! key = Some v ∧ is_number v = false.
Proof. destruct (info !! key) as [v|]; [by exists v|done]. Qed.

(** The three computations of [display_company_info], one after the
    other; the text lines cannot fail. *)
Lemma display_company_info_unfold info σ :
  display_company_info info σ =
    match money_line info "marketCap" "Market Cap" truediv_1e9 σ with
    | Raise e => Raise e
    | Return cap σ1 =>
        match money_line info "fiftyTwoWeekHigh" "52 Week High" format_2f σ1 with
        | Raise e => Raise e
        | Return high σ2 =>
            match money_line info "fiftyTwoWeekLow" "52 Week Low" format_2f σ2 with
            | Raise e => Raise e
            | Return low σ3 =>
                Return (text_line info "longName" "Company Name"
                        ++ text_line info "sector" "Sector"
                        ++ text_line info "industry" "Industry"
                        ++ text_line info "country" "Country"
                        ++ cap ++ high ++ low
                        ++ text_line info "beta" "Beta") σ3
            end
        end
    end.
Proof. reflexivity. Qed.

Lemma display_company_info_numbers info σ :
  numbers_ok info = true →
  ∃ lines, display_company_info info σ = Return lines σ.
Proof.
  unfold numbers_ok, number_fields. cbn [forallb].
  intros Hok. apply andb_prop in Hok as [Hcap Hok].
  apply andb_prop in Hok as [Hhigh Hok]. apply andb_prop in Hok as [Hlow _].
  rewrite display_company_info_unfold.
  destruct (money_line_ok info "marketCap" "Market Cap" truediv_1e9 σ
              (λ v, truediv_1e9_number v σ) Hcap) as [cap ->].
  destruct (money_line_ok info "fiftyTwoWeekHigh" "52 Week High" format_2f σ
              (λ v, format_2f_number v σ) Hhigh) as [high ->].
  destruct (money_line_ok info "fiftyTwoWeekLow" "52 Week Low" format_2f σ
              (λ v, format_2f_number v σ) Hlow) as [low ->].
  by eexists.
Qed.

Lemma format_2f_errors v :
  match v with
  | PyInt _ => OverflowError
  | PyStr _ => ValueError
  | _ => TypeError
  end ∈ [TypeError; ValueError; OverflowError].
Proof. destruct v; set_solver. Qed.

(** The company block of the page. *)
Lemma company_widgets_run info σ lines :
  display_company_info info σ = Return lines σ →
  (if (size info =? 0)%nat then ret []
   else bind (display_company_info info) (λ lines, ret [CompanyInfo lines])) σ
  = Return (if (size info =? 0)%nat then [] else [CompanyInfo lines]) σ.
Proof.
  intros Hlines. destruct (size info =? 0)%nat; [done|].
  by rewrite (bind_return _ _ _ _ _ Hlines).
Qed.

(** X24. [display_company_info] succeeds exactly when every one of
    marketCap, fiftyTwoWeekHigh and fiftyTwoWeekLow that is present holds a
    number: a field that is absent only loses its line, but a field that is
    present and holds [None], a string, a list or dictionary, or an integer
    too large for a float makes the function raise [TypeError],
    [ValueError] or [OverflowError].  It never touches the store. *)
Theorem X24_company_info_needs_numbers info σ :
  (numbers_ok info = true
   ∧ ∃ lines, display_company_info info σ = Return lines σ)
  ∨ (numbers_ok info = false
     ∧ ∃ e, display_company_info info σ = Raise e
            ∧ e ∈ [TypeError; ValueError; OverflowError]).
Proof.
  destruct (numbers_ok info) eqn:Hok.
  { left. split; [done|]. by apply display_company_info_numbers. }
  right. split; [done|]. revert Hok.
  unfold numbers_ok, number_fields. cbn [forallb].
  rewrite display_company_info_unfold.
  destruct (from_option is_number true (info !! "marketCap")) eqn:Hcap.
  - destruct (money_line_ok info "marketCap" "Market Cap" truediv_1e9 σ
                (λ v, truediv_1e9_number v σ) Hcap) as [cap ->].
    destruct (from_option is_number true (info !! "fiftyTwoWeekHigh"))
      eqn:Hhigh.
    + destruct (money_line_ok info "fiftyTwoWeekHigh" "52 Week High"
                  format_2f σ (λ v, format_2f_number v σ) Hhigh) as [high ->].
      destruct (from_option is_number true (info !! "fiftyTwoWeekLow"))
        eqn:Hlow; [done|]. intros _.
      destruct (absent_or_number _ _ Hlow) as (v & Hv & Hbad).
      rewrite (money_line_fails _ _ _ _ _ _ _ Hv (format_2f_not_number v σ Hbad)).
      eexists. split; [done|]. apply format_2f_errors.
    + intros _. destruct (absent_or_number _ _ Hhigh) as (v & Hv & Hbad).
      rewrite (money_line_fails _ _ _ _ _ _ _ Hv (format_2f_not_number v σ Hbad)).
      eexists. split; [done|]. apply format_2f_errors.
  - intros _. destruct (absent_or_number _ _ Hcap) as (v & Hv & Hbad).
    rewrite (money_line_fails _ _ _ _ _ _ _ Hv
               (truediv_1e9_not_number v σ Hbad)).
    eexists. split; [done|]. destruct v; set_solver.
Qed.
End Company.

Section Requests.
Context {F : Type} `{!Float64 F}.
Implicit Types (σ : heap F) (yf : Provider F).

(** C9, as the program has it. Every failed request ends normally with a
    message on the page, never with an exception: a blank ticker gets the
    warning "Please enter a stock ticker ...", caught before anything is
    fetched; an exception raised by yfinance, whatever its cause, and a
    history without rows all get one and the same error "Unable to fetch
    data for '<ticker>' ..." followed by the tip, which differs from the
    warning. *)
Theorem C9_failed_requests_are_reported yf ticker period show_ma show σ why :
  failure ticker (yf (upper ticker) period) = Some why →
  main yf true ticker period show_ma show σ
  = Return (failure_page ticker why) σ
  ∧ (why = MissingInput →
       ∀ yf', main yf' true ticker period show_ma show σ
              = Return (failure_page ticker MissingInput) σ)
  ∧ failure_page (F:=F) ticker InvalidTicker
    = failure_page ticker EmptyHistory
  ∧ failure_page (F:=F) ticker EmptyHistory
    = failure_page ticker TransientFetchError
  ∧ failure_page (F:=F) ticker MissingInput
    ≠ failure_page ticker TransientFetchError.
Proof.
  intros Hwhy. unfold failure in Hwhy. unfold main, get_stock_data.
  split; [|split; [|by repeat split]].
  - destruct (truthy ticker); simpl.
    + destruct (yf (upper ticker) period) as [[]|hist info].
      * by injection Hwhy as <-.
      * by injection Hwhy as <-.
      * destruct (is_empty hist); [|done]. by injection Hwhy as <-.
    + by injection Hwhy as <-.
  - intros -> yf'. destruct (truthy ticker); [|done].
    by destruct (yf (upper ticker) period) as [[]|hist info];
      [| |destruct (is_empty hist)].
Qed.

Lemma iloc_out_of_range (xs : list F) (k : nat) σ :
  length xs < k → iloc xs (- Z.of_nat k) σ = Raise IndexError.
Proof.
  intros Hk. unfold iloc.
  rewrite (proj2 (Z.ltb_lt (- Z.of_nat k) 0)) by lia.
  by rewrite (proj2 (Z.ltb_lt (Z.of_nat (length xs) + - Z.of_nat k) 0)) by lia.
Qed.

(** X1. A history of exactly one row is not a failed request for the page:
    the frame is not empty, so the analysis starts; the company information
    is written (its number fields, where present, holding numbers), and
    [display_key_metrics] then reads [df['Close'].iloc[-2]], which raises
    [IndexError]; nothing catches it. *)
Theorem X1_one_row_history_raises yf ticker period show_ma show σ
    (b : Bar F) info :
  truthy ticker = true →
  yf (upper ticker) period = FetchReturns (frame_of_bars [b]) info →
  numbers_ok info = true →
  main yf true ticker period show_ma show σ = Raise IndexError.
Proof.
  intros Ht Hyf Hok. unfold main, get_stock_data. rewrite Ht, Hyf.
  rewrite (is_empty_false (frame_of_bars [b]) "Close" _
             ltac:(done) (frame_close [b])).
  cbn [andb negb]. unfold analysis.
  rewrite (bind_return _ _ σ (fresh (dom σ))
             (<[fresh (dom σ) := frame_of_bars [b]]> σ) eq_refl).
  rewrite (bind_return _ _ _ _ _
             (calculate_metrics_bars σ (fresh (dom σ)) [b] ltac:(done))).
  destruct (display_company_info_numbers info
              (<[fresh (dom σ) := enriched [b]]> σ) Hok) as [lines Hlines].
  rewrite (bind_return _ _ _ _ _ (company_widgets_run info _ lines Hlines)).
  destruct (enriched_column σ (fresh (dom σ)) [b])
    as (_ & _ & _ & _ & _ & _ & Hclose & _).
  cbv zeta in Hclose. unfold display_key_metrics.
  rewrite bind_bind.
  rewrite (bind_return _ _ _ _ _ (getitem_column _ _ _ _ Hclose)).
  repeat first
    [ rewrite (bind_return _ _ _ _ _
                 (iloc_last [close b] (close b) _ ltac:(simpl; lia) eq_refl))
    | rewrite (bind_return (ret _) _ _ _ _ eq_refl)
    | rewrite bind_bind ].
  unfold bind at 1.
  by rewrite (iloc_out_of_range [close b] 2) by (simpl; lia).
Qed.
End Requests.

(** ** Trailing windows (any arithmetic) *)

Section Windows.
Context {A : Type}.
Implicit Types (xs : list A) (w i j : nat).

Lemma length_window w i xs :
  i < length xs → length (window w i xs) = min w (i + 1).
Proof. intros Hi. unfold window. rewrite length_drop, length_take. lia. Qed.

Lemma window_lookup w i j xs :
  i < length xs → j < min w (i + 1) →
  window w i xs !! j = xs !! (i + 1 - w + j).
Proof.
  intros Hi Hj. unfold window. rewrite lookup_drop, lookup_take_lt; [done|lia].
Qed.

Lemma window_fmap {B} (f : A → B) w i xs :
  window w i (f <$> xs) = f <$> window w i xs.
Proof. unfold window. by rewrite fmap_drop, fmap_take. Qed.

Lemma window_full_slice w i xs :
  i < length xs → w ≤ i + 1 →
  Spec.slice_is xs (i + 1 - w) w (window w i xs).
Proof.
  intros Hi Hw. split.
  - rewrite length_window by done. lia.
  - intros j Hj. apply window_lookup; [done|lia].
Qed.

(** Behind a first row, a full window never reaches row 0. *)
Lemma window_skip_head w i x xs :
  0 < w → w ≤ i → window w i (x :: xs) = window w (i - 1) xs.
Proof.
  intros Hw Hi. unfold window.
  replace (i + 1 - w) with (S (i - w)) by lia.
  replace (i + 1) with (S i) by lia.
  replace (i - 1 + 1 - w) with (i - w) by lia.
  replace (i - 1 + 1) with i by lia.
  reflexivity.
Qed.

(** Before the window is full it starts at row 0. *)
Lemma window_partial w i xs : i + 1 ≤ w → window w i xs = take (i + 1) xs.
Proof.
  intros Hi. unfold window. by replace (i + 1 - w) with 0 by lia.
Qed.
End Windows.

Section Rolling.
Context {F : Type} `{!Float64 F}.
Implicit Types (xs : list F) (w i : nat).

Lemma rolling_lookup w agg xs i :
  i < length xs →
  rolling w agg xs !! i =
    Some (let obs := dropna (window w i (prep_values xs)) in
          if (w <=? length obs)%nat then agg obs else nan).
Proof.
  intros Hi. unfold rolling.
  by rewrite list_lookup_fmap, lookup_seq_lt.
Qed.
End Rolling.

(** ** Exact arithmetic: the pipeline over the extended reals *)

Section Exact.
Import Spec.
Local Open Scope R_scope.
Implicit Types (cs rs : list R) (σ : heap xreal) (l : ref).

Lemma fadd_fin a b : fadd (Fin a) (Fin b) = Fin (a + b).
Proof. reflexivity. Qed.

Lemma fsub_fin a b : fsub (Fin a) (Fin b) = Fin (a - b).
Proof. reflexivity. Qed.

Lemma fmul_fin a b : fmul (Fin a) (Fin b) = Fin (a * b).
Proof. reflexivity. Qed.

Lemma fdiv_fin a b : b ≠ 0 → fdiv (Fin a) (Fin b) = Fin (a / b).
Proof. intros Hb. cbn. by destruct (Req_dec_T b 0). Qed.

Lemma fdiv_zero_zero : fdiv (Fin 0) (Fin 0) = NaN.
Proof.
  cbn. destruct (Req_dec_T 0 0) as [_|Hne]; [|done].
  unfold XReal.sign. by destruct (Req_dec_T 0 0).
Qed.

Lemma fsqrt_fin a : 0 <= a → fsqrt (Fin a) = Fin (R_sqrt.sqrt a).
Proof. intros Ha. cbn. destruct (Rlt_dec a 0); [lra|done]. Qed.

Lemma fsub_nan_l (b : xreal) : fsub NaN b = NaN.
Proof. reflexivity. Qed.

Lemma fdiv_nan_r (a : xreal) : fdiv a NaN = NaN.
Proof. by destruct a. Qed.

Lemma fmul_nan_l (b : xreal) : fmul NaN b = NaN.
Proof. reflexivity. Qed.

Lemma one_fin : one = Fin 1.
Proof. reflexivity. Qed.

Lemma zero_fin : zero = Fin 0.
Proof. reflexivity. Qed.

Lemma f_of_nat_fin n : f_of_nat n = Fin (INR n).
Proof. unfold f_of_nat. cbn. by rewrite <- INR_IZR_INZ. Qed.

Lemma length_returns_after p cs : length (returns_after p cs) = length cs.
Proof. revert p. induction cs as [|c cs IH]; intros p; simpl; [done|]. by rewrite IH. Qed.

Lemma returns_after_lookup p cs i c q :
  (p :: cs) !! i = Some q → cs !! i = Some c →
  returns_after p cs !! i = Some (c / q - 1).
Proof.
  revert p i. induction cs as [|c' cs IH]; intros p i Hq Hc; [done|].
  destruct i as [|i]; simpl in *.
  - by simplify_eq.
  - by apply IH.
Qed.

Lemma pct_change_cons_aux (p : xreal) (xs : list xreal) :
  zip_with (λ x prev, fsub (fdiv x prev) one) xs (take (length xs) (p :: xs))
  = match xs with
    | [] => []
    | x :: rest =>
        fsub (fdiv x p) one
          :: zip_with (λ x prev, fsub (fdiv x prev) one) rest
               (take (length rest) (x :: rest))
    end.
Proof. by destruct xs. Qed.

Lemma pct_change_after p cs :
  Forall (λ c, c ≠ 0) (p :: cs) →
  zip_with (λ x prev, fsub (fdiv x prev) one) (Fin <$> cs)
    (take (length (Fin <$> cs)) (Fin p :: (Fin <$> cs)))
  = Fin <$> returns_after p cs.
Proof.
  revert p. induction cs as [|c cs IH]; intros p Hnz; [done|].
  rewrite fmap_cons, pct_change_cons_aux.
  apply Forall_cons in Hnz as [Hp Hnz].
  rewrite (IH c Hnz). simpl returns_after. rewrite fmap_cons.
  by rewrite (fdiv_fin c p Hp), one_fin, fsub_fin.
Qed.

(** [pct_change] of a series of non-zero reals: missing in the first row,
    then [c_i / c_(i-1) - 1]. *)
Lemma pct_change_reals c0 cs :
  Forall (λ c, c ≠ 0) (c0 :: cs) →
  pct_change (Fin <$> c0 :: cs) = NaN :: (Fin <$> returns_after c0 cs).
Proof.
  intros Hnz. unfold pct_change, shift1.
  rewrite fmap_cons, (pct_change_cons_aux nan (Fin c0 :: (Fin <$> cs))).
  by rewrite (pct_change_after c0 cs Hnz).
Qed.

Lemma positive_nonzero cs : Forall (λ c, 0 < c) cs → Forall (λ c, c ≠ 0) cs.
Proof. intros H. eapply Forall_impl; [exact H|]. intros c Hc. simpl in *. lra. Qed.

Lemma closes_nonempty (bars : list (Bar xreal)) cs :
  close <$> bars = Fin <$> cs → cs ≠ [] → bars ≠ [].
Proof. intros Hc Hcs ->. by destruct cs. Qed.

(** C2. For every bar sequence with at least two rows and positive closes
    [cs], the Daily_Return column is missing (NaN) in row 0 and holds
    [cs[i] / cs[i-1] - 1] in every row [i >= 1]. *)
Theorem C2_daily_return σ l (bars : list (Bar xreal)) cs :
  close <$> bars = Fin <$> cs →
  Forall (λ c, 0 < c) cs →
  (2 <= length bars)%nat →
  ∃ σ' daily,
    calculate_metrics l (<[l := frame_of_bars bars]> σ) = Return (Some l) σ'
    ∧ column σ' l "Daily_Return" = Some daily
    ∧ length daily = length bars
    ∧ daily !! 0%nat = Some NaN
    ∧ ∀ i c p, (1 <= i)%nat →
        cs !! i = Some c → cs !! (i - 1)%nat = Some p →
        daily !! i = Some (Fin (c / p - 1)).
Proof.
  intros Hclose Hpos Hlen.
  assert (bars ≠ []) as Hne by (intros ->; simpl in Hlen; lia).
  destruct cs as [|c0 rest]; [by destruct bars|].
  exists (<[l := enriched bars]> σ), (pct_change (close <$> bars)).
  split; [by apply calculate_metrics_bars|].
  split; [apply enriched_column|].
  split; [by rewrite length_pct_change, length_fmap|].
  rewrite Hclose, (pct_change_reals c0 rest (positive_nonzero _ Hpos)).
  split; [done|].
  intros [|i] c p Hi Hc Hp; [lia|].
  simpl in Hp. rewrite Nat.sub_0_r in Hp. simpl in Hc.
  rewrite lookup_cons, list_lookup_fmap.
  by rewrite (returns_after_lookup c0 rest i c p Hp Hc).
Qed.

(** *** Compounding telescopes *)

Lemma isnan_fill_fin rs :
  (λ x : xreal, if isnan x then one else x) <$> (Fin <$> rs) = Fin <$> rs.
Proof. rewrite <- list_fmap_compose. by apply list_fmap_ext. Qed.

Lemma zip_restore_fin rs (ys : list xreal) :
  length ys = length rs →
  zip_with (λ (x a : xreal), if isnan x then nan else a) (Fin <$> rs) ys = ys.
Proof.
  revert ys. induction rs as [|r rs IH]; intros [|y ys] Hlen; try done.
  simpl in *. f_equal. apply IH. lia.
Qed.

Lemma cumprod_from_telescopes c0 p a cs :
  c0 ≠ 0 → a = p / c0 → Forall (λ c, c ≠ 0) (p :: cs) →
  cumprod_from (Fin a) (Fin <$> ((λ r, 1 + r) <$> returns_after p cs))
  = Fin <$> ((λ c, c / c0) <$> cs).
Proof.
  intros Hc0. revert p a.
  induction cs as [|c cs IH]; intros p a -> Hnz; [done|].
  apply Forall_cons in Hnz as [Hp Hnz].
  cbn [returns_after fmap list_fmap cumprod_from].
  rewrite fmul_fin.
  replace (p / c0 * (1 + (c / p - 1))) with (c / c0) by (field; done).
  f_equal. by apply IH.
Qed.

(** [(1 + daily).cumprod() - 1] over non-zero real closes: missing in row
    0, then [(c_i - c_0) / c_0]. *)
Lemma cumulative_reals c0 cs :
  Forall (λ c, c ≠ 0) (c0 :: cs) →
  sub_scalar
    (cumprod (radd_scalar one (NaN :: (Fin <$> returns_after c0 cs)))) one
  = NaN :: (Fin <$> ((λ c, (c - c0) / c0) <$> cs)).
Proof.
  intros Hnz. pose proof Hnz as Hnz'. apply Forall_cons in Hnz' as [Hc0 _].
  unfold radd_scalar. rewrite fmap_cons.
  replace (fadd one <$> (Fin <$> returns_after c0 cs))
    with (Fin <$> ((λ r, 1 + r) <$> returns_after c0 cs))
    by (rewrite <- !list_fmap_compose; by apply list_fmap_ext).
  unfold cumprod. rewrite fmap_cons, isnan_fill_fin.
  change (fadd one NaN) with NaN. cbn [isnan xreal_float64 XReal.is_nan].
  cbn [np_cumprod zip_with].
  rewrite zip_restore_fin
    by (by rewrite length_cumprod_from, !length_fmap).
  rewrite one_fin.
  rewrite (cumprod_from_telescopes c0 c0 1 cs Hc0 ltac:(by field) Hnz).
  unfold sub_scalar. rewrite fmap_cons. f_equal.
  rewrite <- !list_fmap_compose. apply list_fmap_ext. intros j c _.
  cbn. f_equal. by field.
Qed.

Lemma one_e_minus_9_fin : one_e_minus_9 = Fin (1 / 1000000000).
Proof. unfold one_e_minus_9. apply fdiv_fin. lra. Qed.

Lemma within_rel_tol_refl (t a : R) :
  0 <= t → within_rel_tol (Fin t) (Fin a) (Fin a) = true.
Proof.
  intros Ht. unfold within_rel_tol. cbn.
  destruct (Rle_dec _ _) as [_|Hn]; [done|].
  exfalso. apply Hn. replace (a + - a) with 0 by lra. rewrite Rabs_R0.
  apply Rmult_le_pos; [done|apply Rabs_pos].
Qed.

(** C3, in exact arithmetic. For every bar sequence with positive closes
    [cs] and every row [i >= 1], the Cumulative_Return column (the running
    product of [1 + daily_return], minus 1) holds exactly
    [(cs[i] - cs[0]) / cs[0]], the value the direct formula computes; the
    two therefore agree within the relative tolerance 1e-9. *)
Theorem C3_cumulative_return_exact σ l (bars : list (Bar xreal)) cs i c c0 :
  close <$> bars = Fin <$> cs →
  Forall (λ c, 0 < c) cs →
  (1 <= i)%nat → cs !! 0%nat = Some c0 → cs !! i = Some c →
  ∃ σ' cumulative,
    calculate_metrics l (<[l := frame_of_bars bars]> σ) = Return (Some l) σ'
    ∧ column σ' l "Cumulative_Return" = Some cumulative
    ∧ cumulative !! i = Some (Fin ((c - c0) / c0))
    ∧ fdiv (fsub (Fin c) (Fin c0)) (Fin c0) = Fin ((c - c0) / c0)
    ∧ within_rel_tol one_e_minus_9 (Fin ((c - c0) / c0))
        (fdiv (fsub (Fin c) (Fin c0)) (Fin c0)) = true.
Proof.
  intros Hclose Hpos Hi H0 Hc.
  destruct cs as [|c0' rest]; [done|]. injection H0 as ->.
  assert (bars ≠ []) as Hne by (by apply (closes_nonempty bars (c0 :: rest))).
  pose proof (positive_nonzero _ Hpos) as Hnz.
  pose proof Hnz as Hnz'. apply Forall_cons in Hnz' as [Hc0 _].
  eexists _, _. split; [by apply calculate_metrics_bars|].
  split; [apply enriched_column|].
  rewrite Hclose, (pct_change_reals c0 rest Hnz), (cumulative_reals c0 rest Hnz).
  rewrite fsub_fin, (fdiv_fin _ c0 Hc0), one_e_minus_9_fin.
  split; [|split; [done|apply within_rel_tol_refl; lra]].
  destruct i as [|i]; [lia|]. simpl in Hc.
  rewrite lookup_cons, !list_lookup_fmap. by rewrite Hc.
Qed.

(** *** Aggregates of real observations *)

Lemma prep_values_fin rs : prep_values (Fin <$> rs) = Fin <$> rs.
Proof. unfold prep_values. rewrite <- list_fmap_compose. by apply list_fmap_ext. Qed.

Lemma dropna_fin rs : dropna (Fin <$> rs) = Fin <$> rs.
Proof.
  unfold dropna. induction rs as [|r rs IH]; [done|].
  rewrite fmap_cons, filter_cons_True by done. by rewrite IH.
Qed.

Lemma foldl_fadd_fin a rs :
  foldl fadd (Fin a) (Fin <$> rs) = Fin (a + sum rs).
Proof.
  revert a. induction rs as [|r rs IH]; intros a; simpl.
  - f_equal. lra.
  - rewrite IH. f_equal. lra.
Qed.

Lemma fsum_fin rs : fsum (Fin <$> rs) = Fin (sum rs).
Proof.
  unfold fsum. rewrite zero_fin, foldl_fadd_fin. f_equal. lra.
Qed.

Lemma INR_length_pos {A} (xs : list A) : xs ≠ [] → INR (length xs) ≠ 0.
Proof.
  intros Hne. apply not_0_INR. by destruct xs.
Qed.

Lemma mean_of_fin rs : rs ≠ [] → mean_of (Fin <$> rs) = Fin (mean rs).
Proof.
  intros Hne. unfold mean_of, mean.
  rewrite fsum_fin, f_of_nat_fin, length_fmap.
  apply fdiv_fin. by apply INR_length_pos.
Qed.

Lemma sum_squares_nonneg (m : R) rs :
  0 <= sum ((λ x, (x - m) * (x - m)) <$> rs).
Proof.
  unfold sum. induction rs as [|r rs IH]; [simpl; lra|].
  rewrite fmap_cons. cbn [foldr].
  apply Rplus_le_le_0_compat; [|exact IH].
  pose proof (Rle_0_sqr (r - m)) as Hsq. by unfold Rsqr in Hsq.
Qed.

Lemma std_of_fin rs :
  (2 <= length rs)%nat → std_of (Fin <$> rs) = Fin (sample_std rs).
Proof.
  intros Hlen. unfold std_of, sample_std.
  rewrite length_fmap.
  destruct (Nat.leb_spec (length rs) 1) as [Hle|_]; [lia|].
  assert (rs ≠ []) as Hne by (intros ->; simpl in Hlen; lia).
  rewrite (mean_of_fin rs Hne).
  replace ((λ x : xreal, fmul (fsub x (Fin (mean rs))) (fsub x (Fin (mean rs))))
             <$> (Fin <$> rs))
    with (Fin <$> ((λ x, (x - mean rs) * (x - mean rs)) <$> rs))
    by (rewrite <- !list_fmap_compose; by apply list_fmap_ext).
  rewrite fsum_fin, f_of_nat_fin.
  assert (INR (length rs - 1) = INR (length rs) - 1) as ->
    by (rewrite minus_INR by lia; simpl; lra).
  assert (2 <= INR (length rs)) as Hn
    by (change 2 with (INR 2); by apply le_INR).
  rewrite fdiv_fin by lra.
  apply fsqrt_fin.
  apply Rmult_le_pos; [apply sum_squares_nonneg|].
  apply Rlt_le, Rinv_0_lt_compat. lra.
Qed.

Lemma sqrt_252_fin : fsqrt (f_of_Z 252) = Fin (R_sqrt.sqrt 252).
Proof. apply fsqrt_fin. lra. Qed.

(** *** Rolling aggregates of real series *)

Lemma rolling_reals w agg rs i :
  (0 < w)%nat → (i < length rs)%nat →
  rolling w agg (Fin <$> rs) !! i =
    Some (if (w <=? i + 1)%nat then agg (Fin <$> window w i rs) else NaN).
Proof.
  intros Hw Hi.
  rewrite rolling_lookup by (by rewrite length_fmap).
  cbv zeta.
  rewrite prep_values_fin, window_fmap, dropna_fin, length_fmap,
    length_window by done.
  destruct (Nat.leb_spec w (i + 1)) as [Hle|Hlt].
  - by rewrite (proj2 (Nat.leb_le w (min w (i + 1)))) by lia.
  - by rewrite (proj2 (Nat.leb_gt w (min w (i + 1)))) by lia.
Qed.

(** A series that is missing in row 0 and real afterwards, as Daily_Return
    is: the window holds [w] observations from row [w] on. *)
Lemma rolling_after_nan w agg rs i :
  (0 < w)%nat → (i < S (length rs))%nat →
  rolling w agg (NaN :: (Fin <$> rs)) !! i =
    Some (if (w <=? i)%nat then agg (Fin <$> window w (i - 1) rs) else NaN).
Proof.
  intros Hw Hi.
  rewrite rolling_lookup by (simpl; by rewrite length_fmap).
  cbv zeta.
  change (prep_values (NaN :: (Fin <$> rs)))
    with (NaN :: prep_values (Fin <$> rs)).
  rewrite prep_values_fin.
  destruct (Nat.leb_spec w i) as [Hle|Hlt].
  - rewrite window_skip_head by done.
    rewrite window_fmap, dropna_fin, length_fmap, length_window by lia.
    by rewrite (proj2 (Nat.leb_le w (min w (i - 1 + 1)))) by lia.
  - rewrite window_partial by lia.
    replace (i + 1)%nat with (S i) by lia. rewrite firstn_cons.
    unfold dropna. rewrite filter_cons_False by (simpl; congruence).
    fold (dropna (take i (Fin <$> rs))).
    rewrite <- fmap_take, dropna_fin, length_fmap, length_take.
    by rewrite (proj2 (Nat.leb_gt w (min i (length rs)))) by lia.
Qed.

Lemma rolling_mean_reals k cs i :
  (0 < k)%nat → (i < length cs)%nat →
  ∃ v, rolling_mean k (Fin <$> cs) !! i = Some v
    ∧ (isnan v = false ↔ (k <= i + 1)%nat)
    ∧ ((k <= i + 1)%nat →
         ∃ win, slice_is cs (i + 1 - k) k win ∧ v = Fin (mean win)).
Proof.
  intros Hk Hi. unfold rolling_mean. rewrite rolling_reals by done.
  destruct (Nat.leb_spec k (i + 1)) as [Hle|Hlt].
  - assert (window k i cs ≠ []) as Hne.
    { intros Hnil. pose proof (length_window k i cs Hi) as Hlen.
      rewrite Hnil in Hlen. simpl in Hlen. lia. }
    rewrite (mean_of_fin _ Hne). eexists. split; [done|].
    split; [done|]. intros _. eexists. split; [|done].
    by apply window_full_slice.
  - exists NaN. split; [done|]. split; [|lia].
    split; [done|lia].
Qed.


(** *** Volatility *)

Lemma volatility_reals rs i :
  (i < S (length rs))%nat →
  ∃ v, mul_scalar (rolling_std 20 (NaN :: (Fin <$> rs)))
         (fsqrt (f_of_Z 252)) !! i = Some v
    ∧ (isnan v = false ↔ (20 <= i)%nat)
    ∧ ((20 <= i)%nat →
         ∃ win, slice_is (NaN :: (Fin <$> rs)) (i - 19) 20 (Fin <$> win)
           ∧ v = Fin (sample_std win * R_sqrt.sqrt 252)).
Proof.
  intros Hi. unfold mul_scalar, rolling_std.
  rewrite list_lookup_fmap, rolling_after_nan by (done || lia).
  rewrite sqrt_252_fin.
  destruct (Nat.leb_spec 20 i) as [Hle|Hlt].
  - assert (i - 1 < length rs)%nat as Hi' by lia.
    pose proof (length_window 20 (i - 1) rs Hi') as Hlen.
    rewrite std_of_fin by lia.
    eexists. split; [reflexivity|]. split; [done|]. intros _.
    exists (window 20 (i - 1) rs). split; [|done].
    split; [rewrite length_fmap; lia|].
    intros j Hj. rewrite list_lookup_fmap.
    rewrite window_lookup by lia.
    replace (i - 19 + j)%nat with (S (i - 1 + 1 - 20 + j)) by lia.
    by rewrite lookup_cons, list_lookup_fmap.
  - exists NaN. split; [done|]. split; [|lia]. split; [done|lia].
Qed.

Lemma observations_after_nan rs i :
  (i < S (length rs))%nat →
  length (dropna (take (i + 1) (NaN :: (Fin <$> rs)))) = i.
Proof.
  intros Hi. replace (i + 1)%nat with (S i) by lia. rewrite firstn_cons.
  unfold dropna. rewrite filter_cons_False by (simpl; congruence).
  fold (dropna (take i (Fin <$> rs))).
  rewrite <- fmap_take, dropna_fin, length_fmap, length_take. lia.
Qed.

(** C5, in exact arithmetic and for non-zero closes. For every bar
    sequence with non-zero real closes (positive closes in particular): row
    [i] of the Volatility column has a value iff [i >= 20], i.e. iff rows
    [0 .. i] of Daily_Return hold at least 20 observations (they hold
    exactly [i]); the value is the sample standard deviation (divisor
    n - 1) of the 20 returns [daily_return[i-19 .. i]] times [sqrt 252].
    Over the reals no quotient of closes overflows and the running update
    pandas uses for the rolling variance yields the standard deviation of
    the window itself; neither holds in binary64 (the sequence 1, 2^-600,
    2^600, 1, ... of the rounded arithmetic below shows the first). *)
Theorem C5_volatility σ l (bars : list (Bar xreal)) cs :
  close <$> bars = Fin <$> cs →
  Forall (λ c, c ≠ 0) cs →
  bars ≠ [] →
  ∃ σ' daily vol,
    calculate_metrics l (<[l := frame_of_bars bars]> σ) = Return (Some l) σ'
    ∧ column σ' l "Daily_Return" = Some daily
    ∧ column σ' l "Volatility" = Some vol
    ∧ ∀ i, (i < length bars)%nat →
        length (dropna (take (i + 1) daily)) = i
        ∧ ∃ v, vol !! i = Some v
            ∧ (isnan v = false ↔ (20 <= i)%nat)
            ∧ ((20 <= i)%nat →
                 ∃ win, slice_is daily (i - 19) 20 (Fin <$> win)
                   ∧ v = Fin (sample_std win * R_sqrt.sqrt 252)).
Proof.
  intros Hclose Hnz Hne.
  destruct cs as [|c0 rest]; [by destruct bars|].
  assert (length bars = S (length rest)) as Hlen
    by (by rewrite <- (length_fmap close), Hclose, length_fmap).
  eexists _, _, _. split; [by apply calculate_metrics_bars|].
  split; [apply enriched_column|]. split; [apply enriched_column|].
  rewrite Hclose, (pct_change_reals c0 rest Hnz).
  intros i Hi.
  assert (i < S (length (returns_after c0 rest)))%nat as Hi'
    by (rewrite length_returns_after; lia).
  split; [by apply observations_after_nan|].
  by apply volatility_reals.
Qed.

(** *** The total-period return *)

Lemma hundred_fin : hundred = Fin 100.
Proof. reflexivity. Qed.

Lemma sorted_first_lt_last (c0 : R) rest x :
  StronglySorted Rlt (c0 :: rest) → rest ≠ [] →
  (c0 :: rest) !! (length (c0 :: rest) - 1)%nat = Some x → c0 < x.
Proof.
  intros Hs Hne Hx. apply StronglySorted_inv in Hs as [_ Hall].
  destruct rest as [|r rest]; [done|].
  simpl in Hx. rewrite ?Nat.sub_0_r in Hx.
  by apply (Forall_lookup_1 _ _ _ _ Hall Hx).
Qed.

(** C8. For every bar sequence with at least two rows and positive closes,
    the Total Return metric that [display_key_metrics] shows (a percentage:
    the number [pct] followed by a percent sign) denotes
    [(close[last] - close[first]) / close[first]], which is
    [close[last] / close[first] - 1]; it is positive whenever the closes
    are strictly increasing. *)
Theorem C8_total_return σ l (bars : list (Bar xreal)) cs info first last :
  close <$> bars = Fin <$> cs →
  Forall (λ c, 0 < c) cs →
  (2 <= length bars)%nat →
  cs !! 0%nat = Some first →
  cs !! (length cs - 1)%nat = Some last →
  ∃ σ' km pct,
    calculate_metrics l (<[l := frame_of_bars bars]> σ) = Return (Some l) σ'
    ∧ display_key_metrics l info σ' = Return km σ'
    ∧ total_return km = Fin pct
    ∧ pct / 100 = (last - first) / first
    ∧ pct / 100 = last / first - 1
    ∧ (StronglySorted Rlt cs → 0 < pct).
Proof.
  intros Hclose Hpos Hlen Hfirst Hlast.
  assert (bars ≠ []) as Hne by (intros ->; simpl in Hlen; lia).
  assert (length cs = length bars) as Hcs
    by (by rewrite <- (length_fmap Fin cs), <- Hclose, length_fmap).
  assert (0 < first) as Hfpos by (by apply (Forall_lookup_1 _ _ _ _ Hpos Hfirst)).
  destruct (enriched_column σ l bars)
    as (_ & _ & _ & _ & _ & Hvol & Hcl & Hvolume).
  cbv zeta in Hvol, Hcl. rewrite Hclose in Hcl.
  set (vols := mul_scalar _ _) in Hvol.
  assert (length vols = length bars) as Hvlen.
  { unfold vols, mul_scalar, rolling_std.
    by rewrite length_fmap, length_rolling, length_pct_change, length_fmap. }
  destruct (lookup_lt_is_Some_2 vols (length vols - 1)) as [v Hv]; [lia|].
  destruct (lookup_lt_is_Some_2 cs (length cs - 2)) as [before Hbefore]; [lia|].
  eexists _, _, ((last - first) / first * 100).
  split; [by apply calculate_metrics_bars|].
  split.
  { apply (display_key_metrics_run _ l info (Fin <$> cs) _ vols
             (Fin first) (Fin before) (Fin last) v Hcl Hvolume Hvol);
      rewrite ?length_fmap, ?list_lookup_fmap, ?Hfirst, ?Hbefore, ?Hlast;
      (done || lia). }
  split.
  { cbn [total_return].
    by rewrite fsub_fin, fdiv_fin, hundred_fin, fmul_fin by lra. }
  split; [field; lra|]. split; [field; lra|].
  intros Hs. destruct cs as [|c0 rest]; [done|]. injection Hfirst as ->.
  assert (first < last) as Hlt.
  { apply (sorted_first_lt_last first rest last Hs); [|done].
    intros ->. simpl in Hcs. lia. }
  apply Rmult_lt_0_compat; [|lra].
  apply Rdiv_lt_0_compat; lra.
Qed.

(** *** A constant close *)

Lemma returns_after_constant c n :
  c ≠ 0 → returns_after c (replicate n c) = replicate n 0.
Proof.
  intros Hc. induction n as [|n IH]; [done|].
  simpl. rewrite IH. f_equal. by field.
Qed.

Lemma sum_replicate n x : sum (replicate n x) = INR n * x.
Proof.
  unfold sum. induction n as [|n IH]; [simpl; lra|].
  rewrite S_INR. cbn [replicate foldr]. rewrite IH. lra.
Qed.

Lemma mean_zeros n : mean (replicate n 0) = 0.
Proof.
  unfold mean. rewrite sum_replicate, Rmult_0_r. apply Rdiv_0_l.
Qed.

Lemma sample_std_zeros n : sample_std (replicate n 0) = 0.
Proof.
  unfold sample_std. rewrite mean_zeros, fmap_replicate, sum_replicate.
  replace (INR n * ((0 - 0) * (0 - 0))) with 0 by lra.
  rewrite Rdiv_0_l. apply sqrt_0.
Qed.

Lemma slice_of_zeros (rs : list R) (daily : list xreal) lo n win :
  slice_is daily lo n (Fin <$> win) →
  (∀ j, (j < n)%nat → daily !! (lo + j)%nat = Some (Fin 0)) →
  win = replicate n 0.
Proof.
  intros [Hlen Hwin] Hzero. rewrite length_fmap in Hlen.
  apply list_eq. intros j.
  destruct (decide (j < n)%nat) as [Hj|Hj].
  - rewrite lookup_replicate_2 by done.
    pose proof (Hwin j Hj) as Hw. rewrite (Hzero j Hj), list_lookup_fmap in Hw.
    destruct (win !! j) as [x|]; [|done]. simpl in Hw. by simplify_eq.
  - rewrite lookup_ge_None_2 by lia.
    symmetry. apply lookup_replicate_None. lia.
Qed.

Lemma pct_change_zeros_aux (p : xreal) n :
  p = NaN ∨ p = Fin 0 →
  zip_with (λ x prev, fsub (fdiv x prev) one) (replicate n (Fin 0))
    (take n (p :: replicate n (Fin 0)))
  = replicate n NaN.
Proof.
  revert p. induction n as [|n IH]; intros p Hp; [done|].
  cbn [replicate take zip_with]. rewrite (IH (Fin 0)) by (by right).
  f_equal. destruct Hp as [->| ->]; [done|]. by rewrite fdiv_zero_zero.
Qed.

Lemma pct_change_zeros n : pct_change (replicate n (Fin 0)) = replicate n NaN.
Proof.
  unfold pct_change, shift1. rewrite length_replicate.
  apply pct_change_zeros_aux. by left.
Qed.

Lemma dropna_nans n : dropna (replicate n NaN) = [].
Proof.
  unfold dropna. induction n as [|n IH]; [done|].
  cbn [replicate]. by rewrite filter_cons_False by (simpl; congruence).
Qed.

Lemma rolling_nans w agg n i :
  (0 < w)%nat → (i < n)%nat →
  rolling w agg (replicate n NaN) !! i = Some NaN.
Proof.
  intros Hw Hi. rewrite rolling_lookup by (by rewrite length_replicate).
  cbv zeta. unfold prep_values, window.
  rewrite fmap_replicate, take_replicate, drop_replicate.
  change (if isinf NaN then nan else NaN) with NaN.
  rewrite dropna_nans. simpl.
  by rewrite (proj2 (Nat.leb_gt w 0)) by lia.
Qed.

Lemma mean_of_nil : mean_of (F:=xreal) [] = NaN.
Proof. unfold mean_of. apply fdiv_zero_zero. Qed.

(** C7. For every 30-row bar sequence whose closes all equal one real [c]:
    every Daily_Return value that is present is 0, every Volatility value
    that is present is 0, and the Sharpe ratio of the summary,
    [mean / std * sqrt 252], is NaN.  For [c <> 0] (a positive price in
    particular) the returns of rows 1..29 and the volatilities of rows
    20..29 are present, mean and standard deviation of the returns are 0,
    and the ratio is [0 / 0]. *)
Theorem C7_constant_price σ l (bars : list (Bar xreal)) c :
  close <$> bars = replicate 30 (Fin c) →
  ∃ σ' daily vol stats,
    calculate_metrics l (<[l := frame_of_bars bars]> σ) = Return (Some l) σ'
    ∧ column σ' l "Daily_Return" = Some daily
    ∧ column σ' l "Volatility" = Some vol
    ∧ summary_stats l σ' = Return stats σ'
    ∧ (∀ i v, daily !! i = Some v → isnan v = false → v = Fin 0)
    ∧ (∀ i v, vol !! i = Some v → isnan v = false → v = Fin 0)
    ∧ isnan (sharpe_approx stats) = true
    ∧ (c ≠ 0 →
         (∀ i, (1 <= i < 30)%nat → daily !! i = Some (Fin 0))
         ∧ (∀ i, (20 <= i < 30)%nat → vol !! i = Some (Fin 0))
         ∧ series_mean daily = Fin 0
         ∧ series_std daily = Fin 0).
Proof.
  intros Hclose.
  assert (bars ≠ []) as Hne by (intros ->; done).
  eexists _, _, _, _. split; [by apply calculate_metrics_bars|].
  split; [apply enriched_column|]. split; [apply enriched_column|].
  split; [apply summary_stats_run, enriched_column|].
  rewrite Hclose. cbn [sharpe_approx].
  destruct (Req_dec_T c 0) as [->|Hc].
  - (* the constant is zero: every return is 0/0 *)
    rewrite (pct_change_zeros 30).
    split; [intros i v Hv%lookup_replicate_1; by destruct Hv as [-> _]|].
    split.
    { intros i v Hv Hnan. unfold mul_scalar, rolling_std in Hv.
      pose proof (lookup_lt_Some _ _ _ Hv) as Hi.
      rewrite length_fmap, length_rolling, length_replicate in Hi.
      rewrite list_lookup_fmap, rolling_nans in Hv by (done || lia).
      simpl in Hv. by simplify_eq. }
    split; [|done].
    unfold series_mean. by rewrite dropna_nans, mean_of_nil.
  - (* a non-zero constant: every return is 0 *)
    change (replicate 30 (Fin c)) with (Fin <$> c :: replicate 29 c).
    rewrite pct_change_reals
      by (apply Forall_cons; split; [done|by apply Forall_replicate]).
    rewrite (returns_after_constant c 29 Hc).
    set (daily := NaN :: (Fin <$> replicate 29 0)).
    assert (∀ i, (1 <= i < 30)%nat → daily !! i = Some (Fin 0)) as Hdaily.
    { intros [|i] Hi; [lia|]. unfold daily.
      rewrite lookup_cons, list_lookup_fmap, lookup_replicate_2 by lia. done. }
    assert (∀ i, (20 <= i < 30)%nat →
              mul_scalar (rolling_std 20 daily) (fsqrt (f_of_Z 252)) !! i
              = Some (Fin 0)) as Hvol.
    { intros i Hi.
      destruct (volatility_reals (replicate 29 0) i) as (v & Hv & _ & Hval);
        [rewrite length_replicate; lia|].
      destruct Hval as (win & Hslice & ->); [lia|].
      unfold daily. rewrite Hv.
      rewrite (slice_of_zeros (replicate 29 0) _ _ _ win Hslice)
        by (intros j Hj; apply Hdaily; lia).
      by rewrite sample_std_zeros, Rmult_0_l. }
    assert (length daily = 30%nat) as Hlen30
      by (unfold daily; cbn [length]; by rewrite length_fmap, length_replicate).
    assert (series_mean daily = Fin 0) as Hmean.
    { unfold series_mean, daily, dropna.
      rewrite filter_cons_False by (simpl; congruence).
      fold (dropna (Fin <$> replicate 29 0)).
      rewrite dropna_fin, mean_of_fin by done. by rewrite mean_zeros. }
    assert (series_std daily = Fin 0) as Hstd.
    { unfold series_std, daily, dropna.
      rewrite filter_cons_False by (simpl; congruence).
      fold (dropna (Fin <$> replicate 29 0)).
      rewrite dropna_fin, std_of_fin by (rewrite length_replicate; lia).
      by rewrite sample_std_zeros. }
    split.
    { intros [|i] v Hv Hnan;
        [unfold daily in Hv; simpl in Hv; injection Hv as <-; done|].
      pose proof (lookup_lt_Some _ _ _ Hv) as Hi.
      rewrite Hdaily in Hv by lia. by simplify_eq. }
    split.
    { intros i v Hv Hnan.
      pose proof (lookup_lt_Some _ _ _ Hv) as Hi.
      unfold mul_scalar, rolling_std in Hi.
      rewrite length_fmap, length_rolling, Hlen30 in Hi.
      destruct (volatility_reals (replicate 29 0) i) as (v' & Hv' & Hpres & _);
        [rewrite length_replicate; lia|].
      fold daily in Hv'. rewrite Hv' in Hv. injection Hv as ->.
      apply Hpres in Hnan. rewrite Hvol in Hv' by lia. by simplify_eq. }
    split; [by rewrite Hmean, Hstd, fdiv_zero_zero|].
    done.
Qed.
End Exact.

(** ** Binary64: the pipeline under IEEE 754 rounding *)

Section Rounded.
Import Samples.
Local Open Scope float_scope.

(** C3 as stated fails under binary64 rounding. With closes 100, 100.5,
    100.000001 (all positive, every return defined) the compounded
    Cumulative_Return in row 2 differs from [(close[2] - close[0]) /
    close[0]] by more than 1e-9 times that value; with closes 11, 12, 11 the
    direct value is exactly 0 and the compounded one is not. *)
Lemma C3_fails_in_binary64 :
  (∃ σ' cumulative v,
     calculate_metrics 1%positive
       (<[1%positive := frame_of_bars (flat_bars drifting_closes)]> ∅)
       = Return (Some 1%positive) σ'
     ∧ Forall (λ c, PrimFloat.ltb 0 c = true) drifting_closes
     ∧ column σ' 1%positive "Cumulative_Return" = Some cumulative
     ∧ cumulative !! 2%nat = Some v
     ∧ within_rel_tol one_e_minus_9 v
         (fdiv (fsub 0x1.900000431bde8p+6 100) 100) = false)
  ∧ (∃ σ' cumulative v,
       calculate_metrics 1%positive
         (<[1%positive := frame_of_bars (flat_bars returning_closes)]> ∅)
         = Return (Some 1%positive) σ'
       ∧ column σ' 1%positive "Cumulative_Return" = Some cumulative
       ∧ cumulative !! 2%nat = Some v
       ∧ fdiv (fsub 11 11) 11 = 0
       ∧ PrimFloat.eqb v 0 = false
       ∧ within_rel_tol one_e_minus_9 v (fdiv (fsub 11 11) 11) = false).
Proof.
  split.
  - eexists _, _, _. split; [by apply calculate_metrics_bars|].
    split; [by repeat constructor|].
    split; [apply enriched_column|].
    split; vm_compute; reflexivity.
  - eexists _, _, _. split; [by apply calculate_metrics_bars|].
    split; [apply enriched_column|].
    split; [vm_compute; reflexivity|].
    repeat split; vm_compute; reflexivity.
Qed.

(** C5 as stated fails in binary64, for positive closes.  In this 22-row
    sequence every close is positive and finite, rows 20 and 21 have
    [i >= 20], and rows [0 .. 21] of Daily_Return hold 21 values.  Yet
    Volatility is missing in both rows: the return of row 2 is
    [2^600 / 2^-600 - 1], which overflows to [+inf]; rolling turns an
    infinity into a missing value, so the windows [daily_return[1 .. 20]]
    and [daily_return[2 .. 21]] hold 19 observations, fewer than the 20
    they need.  Only the count of observations decides this, not the way
    the standard deviation is computed. *)
Lemma C5_fails_in_binary64 :
  ∃ σ' daily vol v20 v21,
    calculate_metrics 1%positive
      (<[1%positive := frame_of_bars (flat_bars overflowing_closes)]> ∅)
      = Return (Some 1%positive) σ'
    ∧ Forall (λ c, PrimFloat.ltb 0 c = true ∧ isinf c = false)
        overflowing_closes
    ∧ column σ' 1%positive "Daily_Return" = Some daily
    ∧ column σ' 1%positive "Volatility" = Some vol
    ∧ length (dropna (take 21 daily)) = 20%nat
    ∧ length (dropna (take 22 daily)) = 21%nat
    ∧ daily !! 2%nat = Some infinity
    ∧ length (dropna (prep_values (window 20 20 daily))) = 19%nat
    ∧ length (dropna (prep_values (window 20 21 daily))) = 19%nat
    ∧ vol !! 20%nat = Some v20 ∧ isnan v20 = true
    ∧ vol !! 21%nat = Some v21 ∧ isnan v21 = true.
Proof.
  eexists _, _, _, _, _. split; [by apply calculate_metrics_bars|].
  split; [by repeat constructor|].
  split; [apply enriched_column|]. split; [apply enriched_column|].
  repeat split; vm_compute; reflexivity.
Qed.

(** The same happens in any arithmetic when a close is zero, which is why
    the closes of C5 are taken to be non-zero.  In this 22-row sequence row
    21 has [i >= 20] and rows [0 .. 21] of Daily_Return hold 21 values
    (20 of them finite), yet Volatility is missing there: the window
    [daily_return[2 .. 21]] contains the infinite return [1 / 0 - 1]. *)
Lemma zero_close_hides_volatility :
  ∃ σ' daily vol v,
    calculate_metrics 1%positive
      (<[1%positive := frame_of_bars (flat_bars zero_close_closes)]> ∅)
      = Return (Some 1%positive) σ'
    ∧ column σ' 1%positive "Daily_Return" = Some daily
    ∧ column σ' 1%positive "Volatility" = Some vol
    ∧ length (dropna (take 22 daily)) = 21%nat
    ∧ length (dropna (prep_values (take 22 daily))) = 20%nat
    ∧ vol !! 21%nat = Some v
    ∧ isnan v = true.
Proof.
  eexists _, _, _, _. split; [by apply calculate_metrics_bars|].
  split; [apply enriched_column|]. split; [apply enriched_column|].
  split; [vm_compute; reflexivity|].
  split; [vm_compute; reflexivity|].
  split; vm_compute; reflexivity.
Qed.
End Rounded.

(** ** The theorems at sample inputs *)

Section Witnesses.
Import Spec Samples.
Local Open Scope R_scope.

Lemma C1_witness :
  ∃ σ', calculate_metrics 1%positive
          (<[1%positive := frame_of_bars two_bars]> ∅)
        = Return (Some 1%positive) σ'
    ∧ index_of σ' 1%positive = Some [0; 1]%Z
    ∧ ∀ name xs, column σ' 1%positive name = Some xs → length xs = 2%nat.
Proof.
  destruct (C1_rows_and_order_preserved ∅ 1%positive two_bars)
    as (σ' & Hrun & Hidx & _ & Hlen);
    [discriminate | repeat constructor |].
  exists σ'. split; [exact Hrun|]. split; [exact Hidx|exact Hlen].
Defined.

Lemma C2_witness :
  ∃ σ' daily, calculate_metrics 1%positive
                (<[1%positive := frame_of_bars two_bars]> ∅)
              = Return (Some 1%positive) σ'
    ∧ column σ' 1%positive "Daily_Return" = Some daily
    ∧ daily !! 0%nat = Some NaN
    ∧ daily !! 1%nat = Some (Fin (110 / 100 - 1)).
Proof.
  destruct (C2_daily_return ∅ 1%positive two_bars two_closes)
    as (σ' & daily & Hrun & Hcol & _ & H0 & Hi);
    [reflexivity | repeat constructor; lra | simpl; lia |].
  exists σ', daily. split; [exact Hrun|]. split; [exact Hcol|].
  split; [exact H0|]. apply (Hi 1%nat 110 100); [lia|reflexivity|reflexivity].
Defined.

Lemma C3_witness :
  ∃ σ' cumulative, calculate_metrics 1%positive
                     (<[1%positive := frame_of_bars two_bars]> ∅)
                   = Return (Some 1%positive) σ'
    ∧ column σ' 1%positive "Cumulative_Return" = Some cumulative
    ∧ cumulative !! 1%nat = Some (Fin ((110 - 100) / 100)).
Proof.
  destruct (C3_cumulative_return_exact ∅ 1%positive two_bars two_closes
              1%nat 110 100)
    as (σ' & cumulative & Hrun & Hcol & Hi & _);
    [reflexivity | repeat constructor; lra | lia
    | reflexivity | reflexivity |].
  exists σ', cumulative. split; [exact Hrun|]. split; [exact Hcol|exact Hi].
Defined.


Lemma rising_closes_nonzero : Forall (λ c, c ≠ 0) rising_closes.
Proof. repeat constructor; intros H; lra. Defined.

Lemma C5_witness :
  ∃ σ' vol v, calculate_metrics 1%positive
                (<[1%positive := frame_of_bars rising_bars]> ∅)
              = Return (Some 1%positive) σ'
    ∧ column σ' 1%positive "Volatility" = Some vol
    ∧ vol !! 19%nat = Some NaN
    ∧ vol !! 20%nat = Some v ∧ isnan v = false.
Proof.
  destruct (C5_volatility ∅ 1%positive rising_bars rising_closes)
    as (σ' & daily & vol & Hrun & _ & Hcol & Hrows);
    [reflexivity | exact rising_closes_nonzero | discriminate |].
  destruct (Hrows 19%nat) as (_ & v19 & H19 & Hp19 & _); [simpl; lia|].
  destruct (Hrows 20%nat) as (_ & v20 & H20 & Hp20 & _); [simpl; lia|].
  exists σ', vol, v20. split; [exact Hrun|]. split; [exact Hcol|].
  split; [|split; [exact H20|apply Hp20; lia]].
  rewrite H19. destruct v19; try reflexivity; exfalso; apply proj1 in Hp19;
    specialize (Hp19 eq_refl); lia.
Defined.

Lemma C7_witness :
  ∃ σ' daily vol stats,
    calculate_metrics 1%positive
      (<[1%positive := frame_of_bars constant_bars]> ∅)
    = Return (Some 1%positive) σ'
    ∧ column σ' 1%positive "Daily_Return" = Some daily
    ∧ column σ' 1%positive "Volatility" = Some vol
    ∧ summary_stats 1%positive σ' = Return stats σ'
    ∧ daily !! 1%nat = Some (Fin 0)
    ∧ vol !! 29%nat = Some (Fin 0)
    ∧ isnan (sharpe_approx stats) = true.
Proof.
  destruct (C7_constant_price ∅ 1%positive constant_bars 50)
    as (σ' & daily & vol & stats & Hrun & Hd & Hv & Hs & _ & _ & Hsharpe
        & Hpresent);
    [reflexivity|].
  destruct Hpresent as (Hdaily & Hvol & _); [intros H; lra|].
  exists σ', daily, vol, stats.
  split; [exact Hrun|]. split; [exact Hd|]. split; [exact Hv|].
  split; [exact Hs|]. split; [apply Hdaily; lia|].
  split; [apply Hvol; lia|exact Hsharpe].
Defined.

Lemma C8_witness :
  ∃ σ' km pct,
    calculate_metrics 1%positive
      (<[1%positive := frame_of_bars two_bars]> ∅)
    = Return (Some 1%positive) σ'
    ∧ display_key_metrics 1%positive None σ' = Return km σ'
    ∧ total_return km = Fin pct
    ∧ pct / 100 = (110 - 100) / 100
    ∧ 0 < pct.
Proof.
  destruct (C8_total_return ∅ 1%positive two_bars two_closes None 100 110)
    as (σ' & km & pct & Hrun & Hkm & Htotal & Hfrac & _ & Hpos);
    [reflexivity | repeat constructor; lra | simpl; lia
    | reflexivity | reflexivity |].
  exists σ', km, pct. split; [exact Hrun|]. split; [exact Hkm|].
  split; [exact Htotal|]. split; [exact Hfrac|].
  apply Hpos. repeat constructor. lra.
Defined.

Lemma C9_witness :
  main (unreachable xreal) true "zzzz" "1y" true true ∅
  = Return [StError (unable_to_fetch "zzzz"); StInfo tip] ∅.
Proof.
  apply (C9_failed_requests_are_reported (unreachable xreal) "zzzz" "1y"
           true true ∅ TransientFetchError).
  reflexivity.
Defined.

Lemma C10_witness :
  ∃ σ', calculate_metrics 1%positive
          (<[1%positive := frame_of_bars two_bars]> ∅)
        = Return (Some 1%positive) σ'
    ∧ is_Some (column σ' 1%positive "Volatility")
    ∧ raw_column σ' 1%positive "Close" = Some (FloatCol [Fin 100; Fin 110])
    ∧ raw_column σ' 1%positive "Volume" = Some (IntCol [1000; 1000]%Z).
Proof.
  destruct (C10_in_place_augmentation ∅ 1%positive two_bars)
    as (σ' & Hrun & _ & Hderived & _ & _ & _ & _ & Hclose & Hvolume);
    [discriminate|].
  exists σ'. split; [exact Hrun|]. split; [|split; [exact Hclose|exact Hvolume]].
  do 5 apply Forall_cons in Hderived as [_ Hderived].
  apply Forall_cons in Hderived as [Hvol _]. exact Hvol.
Defined.

Lemma X1_witness :
  main one_day_acme true "abc" "1mo" true true ∅ = Raise IndexError.
Proof.
  apply (X1_one_row_history_raises one_day_acme "abc" "1mo" true true ∅
           (mkBar 0 (Fin 100) (Fin 100) (Fin 100) (Fin 100) 1000) acme_info);
    [reflexivity | reflexivity | vm_compute; reflexivity].
Defined.

Lemma X2_witness :
  ∃ σ' daily,
    calculate_metrics 1%positive
      (<[1%positive := frame_of_bars (flat_bars [100; 110]%float)]> ∅)
    = Return (Some 1%positive) σ'
    ∧ column σ' 1%positive "Daily_Return" = Some daily
    ∧ daily !! 1%nat = Some (110 / 100 - 1)%float.
Proof.
  exact (X2_daily_return_any_arithmetic ∅ 1%positive
           (flat_bars [100; 110]%float) 0 110%float 100%float
           eq_refl eq_refl eq_refl eq_refl).
Defined.
End Witnesses.

(** ** Fetch failures are not told apart *)

(** C9 as stated fails. An unknown instrument, an empty history and an
    unreachable provider are three different failure reasons, yet the three
    requests end with exactly the same page: [get_stock_data] drops the
    exception it catches, and the page has one branch for "no data". *)
Lemma C9_fetch_failures_look_alike :
  failure "ZZZZ" (unknown_instrument float "ZZZZ" "1y") = Some InvalidTicker
  ∧ failure "ZZZZ" (no_history float "ZZZZ" "1y") = Some EmptyHistory
  ∧ failure "ZZZZ" (unreachable float "ZZZZ" "1y") = Some TransientFetchError
  ∧ main (unknown_instrument float) true "ZZZZ" "1y" true true ∅
    = main (no_history float) true "ZZZZ" "1y" true true ∅
  ∧ main (no_history float) true "ZZZZ" "1y" true true ∅
    = main (unreachable float) true "ZZZZ" "1y" true true ∅.
Proof. repeat split; reflexivity. Qed.

(** * Further properties of the program *)

(** ** [calculate_metrics]: repetition, missing columns, short histories *)

Section Engine.
Context {F : Type} `{!Float64 F}.
Implicit Types (σ : heap F) (df : DataFrame F) (l : ref) (xs : list F).

Lemma enriched_columns_twice xs (cols : gmap string (Column F)) :
  enriched_columns xs (enriched_columns xs cols) = enriched_columns xs cols.
Proof.
  apply map_eq. intros k. unfold enriched_columns. cbv zeta.
  destruct (decide (k = "Volatility")) as [->|H1];
    [by rewrite !lookup_insert_eq|].
  destruct (decide (k = "MA_200")) as [->|H2];
    [by repeat first [rewrite lookup_insert_eq
                     | rewrite lookup_insert_ne by done]|].
  destruct (decide (k = "MA_50")) as [->|H3];
    [by repeat first [rewrite lookup_insert_eq
                     | rewrite lookup_insert_ne by done]|].
  destruct (decide (k = "MA_20")) as [->|H4];
    [by repeat first [rewrite lookup_insert_eq
                     | rewrite lookup_insert_ne by done]|].
  destruct (decide (k = "Cumulative_Return")) as [->|H5];
    [by repeat first [rewrite lookup_insert_eq
                     | rewrite lookup_insert_ne by done]|].
  destruct (decide (k = "Daily_Return")) as [->|H6];
    [by repeat first [rewrite lookup_insert_eq
                     | rewrite lookup_insert_ne by done]|].
  by repeat (rewrite lookup_insert_ne by done).
Qed.

Lemma enriched_close (bars : list (Bar F)) :
  columns (enriched bars) !! "Close" = Some (FloatCol (close <$> bars)).
Proof.
  unfold enriched, enriched_columns. cbn [columns].
  repeat (rewrite lookup_insert_ne by done). apply frame_close.
Qed.

(** X3. Enriching an enriched frame changes nothing: on the frame that
    [calculate_metrics] returned for a non-empty bar sequence, a second call
    returns the same reference and leaves the store exactly as the first call
    left it (the six columns are overwritten with the same values; nothing
    is appended twice). *)
Theorem X3_calculate_metrics_twice σ l (bars : list (Bar F)) :
  bars ≠ [] →
  ∃ σ', calculate_metrics l (<[l := frame_of_bars bars]> σ)
          = Return (Some l) σ'
    ∧ calculate_metrics l σ' = Return (Some l) σ'.
Proof.
  intros Hne. exists (<[l := enriched bars]> σ).
  split; [by apply calculate_metrics_bars|].
  rewrite (calculate_metrics_run _ l (enriched bars)
             (FloatCol (close <$> bars)));
    [ | apply lookup_insert_eq | by destruct bars | apply enriched_close ].
  rewrite insert_insert_eq. unfold enriched. cbn [values index columns].
  by rewrite enriched_columns_twice.
Qed.

Lemma is_empty_index df : is_empty df = false → index df ≠ [].
Proof. unfold is_empty. by destruct (index df). Qed.

(** X4. Whatever frame [calculate_metrics] is handed, exactly one of three
    things happens: the frame is empty and the call returns [None] without
    touching the store; the frame has a Close column and the call returns
    the reference it was given; or the frame has rows and columns but no
    Close column and the call raises [KeyError: 'Close'].  No other
    exception can come out of it. *)
Theorem X4_calculate_metrics_outcomes σ l df :
  σ !! l = Some df →
  (is_empty df = true ∧ calculate_metrics l σ = Return None σ)
  ∨ (is_empty df = false ∧ is_Some (columns df !! "Close")
     ∧ ∃ σ', calculate_metrics l σ = Return (Some l) σ'
         ∧ ∀ l', l' ≠ l → σ' !! l' = σ !! l')
  ∨ (is_empty df = false ∧ columns df !! "Close" = None
     ∧ calculate_metrics l σ = Raise (KeyError "Close")).
Proof.
  intros Hl. destruct (is_empty df) eqn:He.
  - left. split; [done|]. by apply (calculate_metrics_empty σ l df).
  - right. destruct (columns df !! "Close") as [c|] eqn:Hc.
    + left. split; [done|]. split; [by eexists|].
      eexists. split.
      * apply (calculate_metrics_run σ l df c Hl); [|done].
        by apply is_empty_index.
      * intros l' Hl'. by rewrite lookup_insert_ne.
    + right. split; [done|]. split; [done|].
      unfold calculate_metrics, empty, getitem, deref, ret, raise, bind.
      by repeat first
        [ rewrite Hl | rewrite He | rewrite Hc | progress cbv beta iota ].
Qed.

Lemma length_dropna xs : length (dropna xs) ≤ length xs.
Proof. unfold dropna. apply length_filter. Qed.

Lemma rolling_short w agg xs i :
  i + 1 < w → i < length xs → rolling w agg xs !! i = Some nan.
Proof.
  intros Hw Hi. rewrite rolling_lookup by done. cbv zeta.
  pose proof (length_dropna (window w i (prep_values xs))) as Hd.
  rewrite length_window in Hd
    by (unfold prep_values; by rewrite length_fmap).
  by rewrite (proj2 (Nat.leb_gt w _)) by lia.
Qed.

(** X5. A moving average never appears before its window is full, whatever
    the closes are (missing, zero or infinite ones included) and whatever the
    arithmetic: in each of MA_20, MA_50 and MA_200 every row [i] with
    [i + 1 < k] holds the missing value.  A history shorter than [k] rows
    therefore has an MA_k column without a single value. *)
Theorem X5_no_average_before_the_window_is_full σ l (bars : list (Bar F)) :
  bars ≠ [] →
  ∃ σ', calculate_metrics l (<[l := frame_of_bars bars]> σ)
          = Return (Some l) σ'
    ∧ Forall (λ '(k, name),
        ∃ ma, column σ' l name = Some ma
          ∧ (∀ i v, ma !! i = Some v → i + 1 < k → v = nan)
          ∧ (length bars < k → ma = replicate (length bars) nan))
        ma_columns.
Proof.
  intros Hne. exists (<[l := enriched bars]> σ).
  split; [by apply calculate_metrics_bars|].
  destruct (enriched_column σ l bars) as (_ & _ & H20 & H50 & H200 & _).
  cbv zeta in H20, H50, H200.
  assert (∀ k, let ma := rolling_mean k (close <$> bars) in
            (∀ i v, ma !! i = Some v → i + 1 < k → v = nan)
            ∧ (length bars < k → ma = replicate (length bars) nan)) as Hk.
  { intros k ma. assert (length ma = length bars) as Hlen
      by (unfold ma, rolling_mean; by rewrite length_rolling, length_fmap).
    assert (∀ i v, ma !! i = Some v → i + 1 < k → v = nan) as Hrow.
    { intros i v Hv Hi. pose proof (lookup_lt_Some _ _ _ Hv) as Hlt.
      unfold ma, rolling_mean in Hv, Hlt. rewrite length_rolling in Hlt.
      rewrite rolling_short in Hv by done. by injection Hv as <-. }
    split; [done|]. intros Hshort. apply list_eq. intros i.
    destruct (decide (i < length bars)) as [Hi|Hi].
    - rewrite lookup_replicate_2 by done.
      destruct (lookup_lt_is_Some_2 ma i) as [v Hv]; [lia|].
      rewrite Hv. f_equal. apply (Hrow i v Hv). lia.
    - rewrite lookup_ge_None_2 by lia. symmetry.
      apply lookup_replicate_None. lia. }
  repeat apply Forall_cons_2; [| | |apply Forall_nil_2];
    (eexists; split; [eassumption|apply Hk]).
Qed.
End Engine.

(** ** The key metrics and the page *)

Section Page.
Context {F : Type} `{!Float64 F}.
Implicit Types (σ : heap F) (df : DataFrame F) (l : ref) (xs : list F).

Lemma getitem_missing σ l df name :
  σ !! l = Some df → columns df !! name = None →
  getitem l name σ = Raise (KeyError name).
Proof.
  intros Hl Hc. unfold getitem, deref, raise, bind. by rewrite Hl, Hc.
Qed.

Lemma column_present σ l df name c :
  σ !! l = Some df → columns df !! name = Some c →
  column σ l name = Some (values c).
Proof. intros Hl Hc. unfold column. rewrite Hl. simpl. by rewrite Hc. Qed.

Lemma getitem_present σ l df name c :
  σ !! l = Some df → columns df !! name = Some c →
  getitem l name σ = Return (values c) σ.
Proof. intros Hl Hc. by apply getitem_column, (column_present σ l df). Qed.

Lemma has_column_absent σ l df name :
  σ !! l = Some df → columns df !! name = None →
  has_column l name σ = Return false σ.
Proof.
  intros Hl Hc. unfold has_column, deref, ret, bind. rewrite Hl, Hc.
  rewrite bool_decide_eq_false_2; [done|]. by intros [? ?].
Qed.

Lemma closes_ends xs :
  2 ≤ length xs →
  ∃ first before last,
    xs !! 0 = Some first
    ∧ xs !! (length xs - 2) = Some before
    ∧ xs !! (length xs - 1) = Some last.
Proof.
  intros Hlen.
  destruct (lookup_lt_is_Some_2 xs 0) as [a Ha]; [lia|].
  destruct (lookup_lt_is_Some_2 xs (length xs - 2)) as [b Hb]; [lia|].
  destruct (lookup_lt_is_Some_2 xs (length xs - 1)) as [c Hc]; [lia|].
  by exists a, b, c.
Qed.

(** The first three metrics of a frame whose Close column has two rows or
    more, up to the read of the Volume column. *)
Lemma display_key_metrics_prefix σ l info closes first before last :
  column σ l "Close" = Some closes →
  2 ≤ length closes →
  closes !! 0 = Some first →
  closes !! (length closes - 2) = Some before →
  closes !! (length closes - 1) = Some last →
  display_key_metrics l info σ =
    bind (getitem l "Volume")
      (λ volume,
         bind (has_column l "Volatility")
           (λ has : bool,
              bind (if has then
                      bind (getitem l "Volatility")
                        (λ vol, bind (iloc vol (-1))
                                  (λ v, ret (fmul v hundred)))
                    else ret zero)
                (λ volatility,
                   ret (mkKeyMetrics last
                          (fmul (fdiv (fsub last before) before) hundred)
                          (fmul (fdiv (fsub last first) first) hundred)
                          (series_mean volume) volatility)))) σ.
Proof.
  intros Hclose Hlen Hfirst Hbefore Hlast.
  unfold display_key_metrics.
  rewrite (bind_return _ _ _ _ _ (getitem_column _ _ _ _ Hclose)).
  assert (1 ≤ length closes) as Hlen1 by lia.
  repeat first
    [ rewrite (bind_return _ _ _ _ _ (iloc_last _ _ _ Hlen1 Hlast))
    | rewrite (bind_return _ _ _ _ _ (iloc_second_last _ _ _ Hlen Hbefore))
    | rewrite (bind_return _ _ _ _ _ (iloc_first _ _ _ Hfirst))
    | rewrite (bind_return (ret _) _ _ _ _ eq_refl) ].
  reflexivity.
Qed.

(** X7. [display_key_metrics] needs the Volume column: on a frame whose
    Close column has two rows or more but which has no Volume column it
    raises [KeyError: 'Volume']. *)
Theorem X7_key_metrics_need_volume σ l df info c :
  σ !! l = Some df →
  columns df !! "Close" = Some c →
  2 ≤ length (values c) →
  columns df !! "Volume" = None →
  display_key_metrics l info σ = Raise (KeyError "Volume").
Proof.
  intros Hl Hc Hlen Hv.
  destruct (closes_ends (values c) Hlen) as (a & b & z & Ha & Hb & Hz).
  pose proof (column_present σ l df "Close" c Hl Hc) as Hcol.
  rewrite (display_key_metrics_prefix σ l info (values c) a b z
             Hcol Hlen Ha Hb Hz).
  unfold bind at 1. by rewrite (getitem_missing σ l df "Volume" Hl Hv).
Qed.

(** X8. [display_key_metrics] does not need the frame to be enriched: on the
    raw frame of a bar sequence with two rows or more (no Volatility column)
    it raises nothing, leaves the store as it is, and reports a volatility of
    0 beside the last close, the change against the previous close, the
    total return and the mean volume. *)
Theorem X8_key_metrics_of_a_raw_frame σ l (bars : list (Bar F)) info :
  2 ≤ length bars →
  ∃ first before last,
    (close <$> bars) !! 0 = Some first
    ∧ (close <$> bars) !! (length bars - 2) = Some before
    ∧ (close <$> bars) !! (length bars - 1) = Some last
    ∧ display_key_metrics l info (<[l := frame_of_bars bars]> σ)
      = Return
          (mkKeyMetrics last
             (fmul (fdiv (fsub last before) before) hundred)
             (fmul (fdiv (fsub last first) first) hundred)
             (series_mean (f_of_Z <$> (volume <$> bars)))
             zero)
          (<[l := frame_of_bars bars]> σ).
Proof.
  intros Hlen.
  destruct (closes_ends (close <$> bars)) as (a & b & z & Ha & Hb & Hz);
    [by rewrite length_fmap|].
  rewrite length_fmap in Hb, Hz.
  exists a, b, z. split; [done|]. split; [done|]. split; [done|].
  set (σ0 := <[l := frame_of_bars bars]> σ).
  assert (σ0 !! l = Some (frame_of_bars bars)) as Hl by apply lookup_insert_eq.
  assert (columns (frame_of_bars bars) !! "Volume"
          = Some (IntCol (volume <$> bars))) as Hvolume.
  { unfold frame_of_bars. cbn [columns].
    by repeat (rewrite lookup_insert_ne by done); rewrite lookup_insert_eq. }
  assert (columns (frame_of_bars bars) !! "Volatility" = None) as Hvol.
  { unfold frame_of_bars. cbn [columns].
    by repeat (rewrite lookup_insert_ne by done); rewrite lookup_empty. }
  pose proof (column_present σ0 l _ "Close" _ Hl (frame_close bars)) as Hcol.
  cbn [values] in Hcol.
  assert (2 ≤ length (close <$> bars)) as Hlen' by (by rewrite length_fmap).
  rewrite (display_key_metrics_prefix σ0 l info (close <$> bars) a b z
             Hcol Hlen' Ha)
    by (by rewrite length_fmap).
  rewrite (bind_return _ _ _ _ _ (getitem_present _ _ _ _ _ Hl Hvolume)).
  by rewrite (bind_return _ _ _ _ _ (has_column_absent _ _ _ _ Hl Hvol)).
Qed.

Lemma key_metrics_of_enriched σ l (bars : list (Bar F)) info :
  2 ≤ length bars →
  ∃ km, display_key_metrics l info (<[l := enriched bars]> σ)
        = Return km (<[l := enriched bars]> σ).
Proof.
  intros Hlen.
  destruct (enriched_column σ l bars)
    as (_ & _ & _ & _ & _ & Hvol & Hclose & Hvolume).
  cbv zeta in Hvol, Hclose.
  set (vols := mul_scalar _ _) in Hvol.
  assert (length vols = length bars) as Hvlen.
  { unfold vols, mul_scalar, rolling_std.
    by rewrite length_fmap, length_rolling, length_pct_change, length_fmap. }
  destruct (closes_ends (close <$> bars)) as (a & b & z & Ha & Hb & Hz);
    [by rewrite length_fmap|].
  destruct (lookup_lt_is_Some_2 vols (length vols - 1)) as [v Hv]; [lia|].
  eexists.
  apply (display_key_metrics_run _ l info (close <$> bars) _ vols a b z v
           Hclose Hvolume Hvol);
    first [done | rewrite length_fmap; lia | lia].
Qed.

Lemma summary_of_enriched σ l (bars : list (Bar F)) :
  ∃ stats, summary_stats l (<[l := enriched bars]> σ)
           = Return stats (<[l := enriched bars]> σ).
Proof.
  eexists. apply summary_stats_run. apply enriched_column.
Qed.

End Page.

(** ** The charts *)

Section ChartFacts.
Context {F : Type} `{!Float64 F}.
Implicit Types (σ : heap F) (df : DataFrame F) (l : ref) (xs : list F).

Lemma get_index_run σ l df :
  σ !! l = Some df → get_index l σ = Return (index df) σ.
Proof. intros Hl. unfold get_index, deref, ret, bind. by rewrite Hl. Qed.

Lemma frame_columns (bars : list (Bar F)) :
  columns (frame_of_bars bars) !! "Open" = Some (FloatCol (open <$> bars))
  ∧ columns (frame_of_bars bars) !! "High" = Some (FloatCol (high <$> bars))
  ∧ columns (frame_of_bars bars) !! "Low" = Some (FloatCol (low <$> bars))
  ∧ columns (frame_of_bars bars) !! "Close" = Some (FloatCol (close <$> bars))
  ∧ columns (frame_of_bars bars) !! "Volume" = Some (IntCol (volume <$> bars))
  ∧ Forall (λ name, columns (frame_of_bars bars) !! name = None)
      ["Daily_Return"; "Cumulative_Return"; "MA_20"; "MA_50"; "MA_200";
       "Volatility"].
Proof.
  unfold frame_of_bars. cbn [columns].
  repeat split;
    try (repeat (rewrite lookup_insert_ne by done); by rewrite lookup_insert_eq).
  repeat constructor;
    repeat (rewrite lookup_insert_ne by done); by rewrite lookup_empty.
Qed.

Lemma enriched_raw_columns (bars : list (Bar F)) name :
  name ∈ ["Open"; "High"; "Low"; "Close"; "Volume"] →
  columns (enriched bars) !! name = columns (frame_of_bars bars) !! name.
Proof.
  intros Hin. unfold enriched, enriched_columns. cbn [columns].
  repeat (apply elem_of_cons in Hin as [->|Hin];
          [by repeat (rewrite lookup_insert_ne by done)|]).
  by apply elem_of_nil in Hin.
Qed.

Lemma enriched_derived_columns (bars : list (Bar F)) :
  let closes := close <$> bars in
  columns (enriched bars) !! "MA_20" = Some (FloatCol (rolling_mean 20 closes))
  ∧ columns (enriched bars) !! "MA_50" = Some (FloatCol (rolling_mean 50 closes))
  ∧ columns (enriched bars) !! "MA_200"
    = Some (FloatCol (rolling_mean 200 closes)).
Proof.
  cbv zeta. unfold enriched, enriched_columns. cbn [columns].
  repeat split;
    repeat (rewrite lookup_insert_ne by done); by rewrite lookup_insert_eq.
Qed.

(** The part of [create_price_chart] around the moving averages. *)
Lemma create_price_chart_run σ l df ticker (show_ma : bool)
    (opens highs lows closes volumes : Column F) averages :
  σ !! l = Some df →
  columns df !! "Open" = Some opens →
  columns df !! "High" = Some highs →
  columns df !! "Low" = Some lows →
  columns df !! "Close" = Some closes →
  columns df !! "Volume" = Some volumes →
  (if show_ma then add_ma_traces l ma_styles
   else (ret [] : M F (list (Trace F)))) σ
    = Return averages σ →
  create_price_chart l ticker show_ma σ =
    Return
      (mkFigure [ticker +:+ " Stock Price"; "Volume"]
         ([Candlestick (index df) (values opens) (values highs) (values lows)
             (values closes) "Price" 1]
          ++ averages
          ++ [BarTrace (index df) (values volumes) "Volume"
                (volume_colors (values closes) (values opens)) 2])) σ.
Proof.
  intros Hl Ho Hh Hlo Hc Hv Hma. unfold create_price_chart.
  rewrite (bind_return _ _ _ _ _ (get_index_run _ _ _ Hl)).
  rewrite (bind_return _ _ _ _ _ (getitem_present _ _ _ _ _ Hl Ho)).
  rewrite (bind_return _ _ _ _ _ (getitem_present _ _ _ _ _ Hl Hh)).
  rewrite (bind_return _ _ _ _ _ (getitem_present _ _ _ _ _ Hl Hlo)).
  rewrite (bind_return _ _ _ _ _ (getitem_present _ _ _ _ _ Hl Hc)).
  rewrite (bind_return (ret _) _ _ _ _ eq_refl).
  rewrite (bind_return _ _ _ _ _ Hma).
  rewrite (bind_return _ _ _ _ _ (getitem_present _ _ _ _ _ Hl Hc)).
  rewrite (bind_return _ _ _ _ _ (getitem_present _ _ _ _ _ Hl Ho)).
  rewrite (bind_return (ret _) _ _ _ _ eq_refl).
  rewrite (bind_return _ _ _ _ _ (get_index_run _ _ _ Hl)).
  by rewrite (bind_return _ _ _ _ _ (getitem_present _ _ _ _ _ Hl Hv)).
Qed.

Lemma add_ma_trace_absent σ l df ma color name rest more :
  σ !! l = Some df → columns df !! ma = None →
  add_ma_traces l rest σ = Return more σ →
  add_ma_traces l ((ma, color, name) :: rest) σ = Return more σ.
Proof.
  intros Hl Hma Hrest. cbn [add_ma_traces].
  rewrite (bind_return _ _ _ _ _ (has_column_absent _ _ _ _ Hl Hma)).
  rewrite (bind_return (ret _) _ _ _ _ eq_refl).
  by rewrite (bind_return _ _ _ _ _ Hrest).
Qed.

Lemma add_ma_trace_present σ l df ma color name rest more c :
  σ !! l = Some df → columns df !! ma = Some c →
  add_ma_traces l rest σ = Return more σ →
  add_ma_traces l ((ma, color, name) :: rest) σ
    = Return (Scatter (index df) (values c) name color 1 :: more) σ.
Proof.
  intros Hl Hma Hrest. cbn [add_ma_traces].
  rewrite (bind_return _ _ _ _ _
             (has_column_present _ _ _ _ (column_present _ _ _ _ _ Hl Hma))).
  rewrite bind_bind, (bind_return _ _ _ _ _ (get_index_run _ _ _ Hl)).
  rewrite bind_bind, (bind_return _ _ _ _ _ (getitem_present _ _ _ _ _ Hl Hma)).
  rewrite (bind_return (ret _) _ _ _ _ eq_refl).
  by rewrite (bind_return _ _ _ _ _ Hrest).
Qed.

(** X9. The price chart does not need an enriched frame.  On the raw frame
    of any bar sequence (the empty one included) it raises nothing, leaves
    the store as it is and draws exactly two traces, the candlesticks and
    the volume bars, whether Moving Averages is ticked or not: a moving
    average whose column is missing is skipped, not looked up. *)
Theorem X9_price_chart_of_a_raw_frame σ l (bars : list (Bar F)) ticker
    (show_ma : bool) :
  create_price_chart l ticker show_ma (<[l := frame_of_bars bars]> σ) =
    Return
      (mkFigure [ticker +:+ " Stock Price"; "Volume"]
         [Candlestick (date <$> bars) (open <$> bars) (high <$> bars)
            (low <$> bars) (close <$> bars) "Price" 1;
          BarTrace (date <$> bars) (f_of_Z <$> (volume <$> bars)) "Volume"
            (volume_colors (close <$> bars) (open <$> bars)) 2])
      (<[l := frame_of_bars bars]> σ).
Proof.
  set (σ0 := <[l := frame_of_bars bars]> σ).
  assert (σ0 !! l = Some (frame_of_bars bars)) as Hl by apply lookup_insert_eq.
  destruct (frame_columns bars) as (Ho & Hh & Hlo & Hc & Hv & Hnone).
  apply Forall_cons in Hnone as [_ Hnone].
  apply Forall_cons in Hnone as [_ Hnone].
  apply Forall_cons in Hnone as [H20 Hnone].
  apply Forall_cons in Hnone as [H50 Hnone].
  apply Forall_cons in Hnone as [H200 _].
  apply (create_price_chart_run σ0 l (frame_of_bars bars) ticker show_ma
           _ _ _ _ _ [] Hl Ho Hh Hlo Hc Hv).
  destruct show_ma; [|done]. unfold ma_styles.
  apply (add_ma_trace_absent _ _ _ _ _ _ _ _ Hl H20).
  apply (add_ma_trace_absent _ _ _ _ _ _ _ _ Hl H50).
  by apply (add_ma_trace_absent _ _ _ _ _ _ _ _ Hl H200).
Qed.

Lemma price_chart_of_enriched σ l (bars : list (Bar F))
    ticker (show_ma : bool) :
  create_price_chart l ticker show_ma (<[l := enriched bars]> σ) =
    Return
      (mkFigure [ticker +:+ " Stock Price"; "Volume"]
         ([Candlestick (date <$> bars) (open <$> bars) (high <$> bars)
             (low <$> bars) (close <$> bars) "Price" 1]
          ++ (if show_ma then
                [Scatter (date <$> bars) (rolling_mean 20 (close <$> bars))
                   "20-day MA" "#FFA726" 1;
                 Scatter (date <$> bars) (rolling_mean 50 (close <$> bars))
                   "50-day MA" "#42A5F5" 1;
                 Scatter (date <$> bars) (rolling_mean 200 (close <$> bars))
                   "200-day MA" "#AB47BC" 1]
              else [])
          ++ [BarTrace (date <$> bars) (f_of_Z <$> (volume <$> bars)) "Volume"
                (volume_colors (close <$> bars) (open <$> bars)) 2]))
      (<[l := enriched bars]> σ).
Proof.
  set (σ0 := <[l := enriched bars]> σ).
  assert (σ0 !! l = Some (enriched bars)) as Hl by apply lookup_insert_eq.
  destruct (frame_columns bars) as (Ho & Hh & Hlo & Hc & Hv & _).
  rewrite <- (enriched_raw_columns bars "Open") in Ho by set_solver.
  rewrite <- (enriched_raw_columns bars "High") in Hh by set_solver.
  rewrite <- (enriched_raw_columns bars "Low") in Hlo by set_solver.
  rewrite <- (enriched_raw_columns bars "Close") in Hc by set_solver.
  rewrite <- (enriched_raw_columns bars "Volume") in Hv by set_solver.
  destruct (enriched_derived_columns bars) as (H20 & H50 & H200).
  apply (create_price_chart_run σ0 l (enriched bars) ticker show_ma
           _ _ _ _ _ _ Hl Ho Hh Hlo Hc Hv).
  destruct show_ma; [|done]. unfold ma_styles.
  apply (add_ma_trace_present _ _ _ _ _ _ _ _ _ Hl H20).
  apply (add_ma_trace_present _ _ _ _ _ _ _ _ _ Hl H50).
  by apply (add_ma_trace_present _ _ _ _ _ _ _ _ _ Hl H200).
Qed.

(** X10. On the enriched frame of a bar sequence the price chart
    has the candlesticks first and the volume bars last; with Moving
    Averages ticked the three averages MA_20, MA_50 and MA_200 are drawn
    between them, in this order and each with the values of its column;
    unticked, nothing is drawn between them.  The store is not changed. *)
Theorem X10_price_chart_of_an_enriched_frame σ l (bars : list (Bar F))
    ticker (show_ma : bool) :
  create_price_chart l ticker show_ma (<[l := enriched bars]> σ) =
    Return
      (mkFigure [ticker +:+ " Stock Price"; "Volume"]
         ([Candlestick (date <$> bars) (open <$> bars) (high <$> bars)
             (low <$> bars) (close <$> bars) "Price" 1]
          ++ (if show_ma then
                [Scatter (date <$> bars) (rolling_mean 20 (close <$> bars))
                   "20-day MA" "#FFA726" 1;
                 Scatter (date <$> bars) (rolling_mean 50 (close <$> bars))
                   "50-day MA" "#42A5F5" 1;
                 Scatter (date <$> bars) (rolling_mean 200 (close <$> bars))
                   "200-day MA" "#AB47BC" 1]
              else [])
          ++ [BarTrace (date <$> bars) (f_of_Z <$> (volume <$> bars)) "Volume"
                (volume_colors (close <$> bars) (open <$> bars)) 2]))
      (<[l := enriched bars]> σ).
Proof. apply price_chart_of_enriched. Qed.

(** X11. The returns chart and the volatility chart, unlike the price chart
    and the key metrics, need the enriched frame: on the raw frame of a bar
    sequence [create_returns_chart] raises [KeyError: 'Cumulative_Return']
    and [create_volatility_chart] raises [KeyError: 'Volatility']. *)
Theorem X11_returns_and_volatility_charts_need_enrichment σ l
    (bars : list (Bar F)) ticker :
  create_returns_chart l ticker (<[l := frame_of_bars bars]> σ)
    = Raise (KeyError "Cumulative_Return")
  ∧ create_volatility_chart l ticker (<[l := frame_of_bars bars]> σ)
    = Raise (KeyError "Volatility").
Proof.
  set (σ0 := <[l := frame_of_bars bars]> σ).
  assert (σ0 !! l = Some (frame_of_bars bars)) as Hl by apply lookup_insert_eq.
  destruct (frame_columns bars) as (_ & _ & _ & _ & _ & Hnone).
  apply Forall_cons in Hnone as [_ Hnone].
  apply Forall_cons in Hnone as [Hcum Hnone].
  do 3 apply Forall_cons in Hnone as [_ Hnone].
  apply Forall_cons in Hnone as [Hvol _].
  split.
  - unfold create_returns_chart.
    rewrite (bind_return _ _ _ _ _ (get_index_run _ _ _ Hl)).
    unfold bind at 1. by rewrite (getitem_missing _ _ _ _ Hl Hcum).
  - unfold create_volatility_chart.
    rewrite (bind_return _ _ _ _ _ (get_index_run _ _ _ Hl)).
    unfold bind at 1. by rewrite (getitem_missing _ _ _ _ Hl Hvol).
Qed.

(** X12. The volatility chart and the Volatility metric agree, whatever the
    arithmetic: on the enriched frame of a bar sequence with two rows or
    more the chart draws one line with one point per row, the Volatility
    column times 100, and its last point is the number
    [display_key_metrics] reports as volatility. *)
Theorem X12_volatility_chart_ends_at_the_metric σ l (bars : list (Bar F))
    ticker info :
  2 ≤ length bars →
  ∃ vol km,
    column (<[l := enriched bars]> σ) l "Volatility" = Some vol
    ∧ create_volatility_chart l ticker (<[l := enriched bars]> σ)
      = Return
          (mkFigure [ticker +:+ " Rolling Volatility (20-day)"]
             [Scatter (date <$> bars) (mul_scalar vol hundred)
                "20-day Volatility" "#d62728" 1])
          (<[l := enriched bars]> σ)
    ∧ length (mul_scalar vol hundred) = length bars
    ∧ display_key_metrics l info (<[l := enriched bars]> σ)
      = Return km (<[l := enriched bars]> σ)
    ∧ mul_scalar vol hundred !! (length bars - 1) = Some (volatility km).
Proof.
  intros Hlen.
  set (σ0 := <[l := enriched bars]> σ).
  assert (σ0 !! l = Some (enriched bars)) as Hl by apply lookup_insert_eq.
  destruct (enriched_column σ l bars)
    as (_ & _ & _ & _ & _ & Hvol & Hclose & Hvolume).
  cbv zeta in Hvol, Hclose. fold σ0 in Hvol, Hclose, Hvolume.
  set (vols := mul_scalar _ _) in Hvol.
  assert (length vols = length bars) as Hvlen.
  { unfold vols, mul_scalar, rolling_std.
    by rewrite length_fmap, length_rolling, length_pct_change, length_fmap. }
  destruct (closes_ends (close <$> bars)) as (a & b & z & Ha & Hb & Hz);
    [by rewrite length_fmap|].
  destruct (lookup_lt_is_Some_2 vols (length vols - 1)) as [v Hv]; [lia|].
  eexists vols, _. split; [done|]. split.
  { unfold create_volatility_chart.
    rewrite (bind_return _ _ _ _ _ (get_index_run _ _ _ Hl)).
    by rewrite (bind_return _ _ _ _ _ (getitem_column _ _ _ _ Hvol)). }
  split; [unfold mul_scalar at 1; by rewrite length_fmap|].
  split.
  { apply (display_key_metrics_run σ0 l info (close <$> bars) _ vols a b z v
             Hclose Hvolume Hvol);
      first [done | rewrite length_fmap; lia | lia]. }
  cbn [volatility]. unfold mul_scalar at 1.
  rewrite list_lookup_fmap, <- Hvlen, Hv. done.
Qed.
Lemma returns_chart_of_enriched σ l (bars : list (Bar F)) ticker :
  ∃ fig, create_returns_chart l ticker (<[l := enriched bars]> σ)
         = Return fig (<[l := enriched bars]> σ).
Proof.
  set (σ0 := <[l := enriched bars]> σ).
  assert (σ0 !! l = Some (enriched bars)) as Hl by apply lookup_insert_eq.
  destruct (enriched_column σ l bars) as (Hdaily & Hcum & _).
  cbv zeta in Hdaily, Hcum. fold σ0 in Hdaily, Hcum.
  eexists. unfold create_returns_chart.
  rewrite (bind_return _ _ _ _ _ (get_index_run _ _ _ Hl)).
  rewrite (bind_return _ _ _ _ _ (getitem_column _ _ _ _ Hcum)).
  by rewrite (bind_return _ _ _ _ _ (getitem_column _ _ _ _ Hdaily)).
Qed.

Lemma volatility_chart_of_enriched σ l (bars : list (Bar F)) ticker :
  ∃ fig, create_volatility_chart l ticker (<[l := enriched bars]> σ)
         = Return fig (<[l := enriched bars]> σ).
Proof.
  set (σ0 := <[l := enriched bars]> σ).
  assert (σ0 !! l = Some (enriched bars)) as Hl by apply lookup_insert_eq.
  destruct (enriched_column σ l bars) as (_ & _ & _ & _ & _ & Hvol & _).
  cbv zeta in Hvol. fold σ0 in Hvol.
  eexists. unfold create_volatility_chart.
  rewrite (bind_return _ _ _ _ _ (get_index_run _ _ _ Hl)).
  by rewrite (bind_return _ _ _ _ _ (getitem_column _ _ _ _ Hvol)).
Qed.
End ChartFacts.

(** ** A whole request *)

Section Request.
Context {F : Type} `{!Float64 F}.
Implicit Types (σ : heap F) (yf : Provider F) (info : Info F).

(** A request with a ticker and a history that has rows: the history is
    stored under a fresh reference and enriched, and the page is built on
    the enriched frame. *)
Lemma analysis_starts yf ticker period (show_ma show : bool) σ
    (bars : list (Bar F)) info :
  truthy ticker = true →
  yf (upper ticker) period = FetchReturns (frame_of_bars bars) info →
  bars ≠ [] →
  main yf true ticker period show_ma show σ =
    bind (if (size info =? 0)%nat then ret []
          else bind (display_company_info info)
                 (λ lines, ret [CompanyInfo lines]))
      (λ company,
         bind (display_key_metrics (fresh (dom σ)) (Some info))
           (λ km,
              bind (create_price_chart (fresh (dom σ)) (upper ticker) show_ma)
                (λ price_fig,
                   bind (if show then
                           bind (create_returns_chart (fresh (dom σ))
                                   (upper ticker))
                             (λ returns_fig, ret [ReturnsChart returns_fig])
                         else ret [])
                     (λ returns,
                        bind (if show then
                                bind (create_volatility_chart (fresh (dom σ))
                                        (upper ticker))
                                  (λ volatility_fig,
                                     bind (summary_stats (fresh (dom σ)))
                                       (λ stats,
                                          ret [VolatilityChart volatility_fig;
                                               SummaryTable stats]))
                              else ret [])
                          (λ volatility,
                             ret (company
                                  ++ [KeyMetricsPanel km; PriceChart price_fig]
                                  ++ returns ++ volatility
                                  ++ [DownloadButton (fresh (dom σ))
                                        (ticker +:+ "_" +:+ period
                                           +:+ "_data.csv")]))))))
      (<[fresh (dom σ) := enriched bars]> σ).
Proof.
  intros Ht Hyf Hne.
  unfold main, get_stock_data. rewrite Ht, Hyf.
  rewrite (is_empty_false (frame_of_bars bars) "Close" _
             (frame_index_nonempty bars Hne) (frame_close bars)).
  cbn [andb negb]. unfold analysis.
  rewrite (bind_return _ _ σ (fresh (dom σ))
             (<[fresh (dom σ) := frame_of_bars bars]> σ) eq_refl).
  by rewrite (bind_return _ _ _ _ _
                (calculate_metrics_bars σ (fresh (dom σ)) bars Hne)).
Qed.

(** X6. A submitted request with a non-blank ticker whose history has two
    rows or more, and whose info dictionary holds numbers in the number
    fields that are present, succeeds.  The history enters the store under a
    fresh reference and is enriched there; the page shows, in this order,
    the company information (only if the info dictionary is not empty), the
    key metrics, the price chart, then - only when Returns Analysis is
    ticked - the returns chart, the volatility chart and the summary table,
    and last the download button, whose file name is the ticker as typed
    (not upper-cased), the period and "_data.csv".  The figures are the
    ones the three chart functions build from the enriched frame, titled
    with the upper-cased ticker.  No error or warning is shown and no frame
    that was in the store is changed. *)
Theorem X6_successful_request yf ticker period (show_ma show : bool) σ
    (bars : list (Bar F)) info :
  truthy ticker = true →
  yf (upper ticker) period = FetchReturns (frame_of_bars bars) info →
  2 ≤ length bars →
  numbers_ok info = true →
  ∃ r lines km price_fig returns_fig volatility_fig stats,
    σ !! r = None
    ∧ display_company_info info (<[r := enriched bars]> σ)
      = Return lines (<[r := enriched bars]> σ)
    ∧ display_key_metrics r (Some info) (<[r := enriched bars]> σ)
      = Return km (<[r := enriched bars]> σ)
    ∧ create_price_chart r (upper ticker) show_ma (<[r := enriched bars]> σ)
      = Return price_fig (<[r := enriched bars]> σ)
    ∧ create_returns_chart r (upper ticker) (<[r := enriched bars]> σ)
      = Return returns_fig (<[r := enriched bars]> σ)
    ∧ create_volatility_chart r (upper ticker) (<[r := enriched bars]> σ)
      = Return volatility_fig (<[r := enriched bars]> σ)
    ∧ summary_stats r (<[r := enriched bars]> σ)
      = Return stats (<[r := enriched bars]> σ)
    ∧ main yf true ticker period show_ma show σ
      = Return
          ((if (size info =? 0)%nat then [] else [CompanyInfo lines])
           ++ [KeyMetricsPanel km; PriceChart price_fig]
           ++ (if show
               then [ReturnsChart returns_fig; VolatilityChart volatility_fig;
                     SummaryTable stats]
               else [])
           ++ [DownloadButton r (ticker +:+ "_" +:+ period +:+ "_data.csv")])
          (<[r := enriched bars]> σ).
Proof.
  intros Ht Hyf Hlen Hok.
  assert (bars ≠ []) as Hne by (intros ->; simpl in Hlen; lia).
  rewrite (analysis_starts yf ticker period show_ma show σ bars info Ht Hyf Hne).
  set (r := fresh (dom σ)).
  destruct (display_company_info_numbers info (<[r := enriched bars]> σ) Hok)
    as [lines Hlines].
  destruct (key_metrics_of_enriched σ r bars (Some info) Hlen) as [km Hkm].
  pose proof (price_chart_of_enriched σ r bars (upper ticker) show_ma) as Hprice.
  destruct (returns_chart_of_enriched σ r bars (upper ticker))
    as [returns_fig Hreturns].
  destruct (volatility_chart_of_enriched σ r bars (upper ticker))
    as [volatility_fig Hvolatility].
  destruct (summary_of_enriched σ r bars) as [stats Hstats].
  eexists r, lines, km, _, returns_fig, volatility_fig, stats.
  split; [apply not_elem_of_dom, is_fresh|].
  split; [done|]. split; [done|]. split; [exact Hprice|].
  split; [done|]. split; [done|]. split; [done|].
  rewrite (bind_return _ _ _ _ _ (company_widgets_run info _ lines Hlines)).
  rewrite (bind_return _ _ _ _ _ Hkm).
  rewrite (bind_return _ _ _ _ _ Hprice).
  destruct show.
  - rewrite bind_bind, (bind_return _ _ _ _ _ Hreturns).
    rewrite (bind_return (ret _) _ _ _ _ eq_refl).
    rewrite bind_bind, (bind_return _ _ _ _ _ Hvolatility).
    rewrite bind_bind, (bind_return _ _ _ _ _ Hstats).
    by rewrite (bind_return (ret _) _ _ _ _ eq_refl).
  - rewrite (bind_return (ret _) _ _ _ _ eq_refl).
    by rewrite (bind_return (ret _) _ _ _ _ eq_refl).
Qed.

(** X23. A market capitalisation that is present but is no number fails
    the whole request.  Whatever the history (one row is enough), when
    [info['marketCap']] is [None], a string, a list or a dictionary the
    division by [1e9] raises [TypeError], and when it is an integer too
    large for a float it raises [OverflowError]; this happens after the
    frame is enriched and before any metric or chart is shown, and nothing
    catches it. *)
Theorem X23_market_cap_that_is_no_number yf ticker period (show_ma show : bool)
    σ (bars : list (Bar F)) info v :
  truthy ticker = true →
  yf (upper ticker) period = FetchReturns (frame_of_bars bars) info →
  bars ≠ [] →
  info !! "marketCap" = Some v →
  is_number v = false →
  main yf true ticker period show_ma show σ
  = Raise (match v with PyInt _ => OverflowError | _ => TypeError end).
Proof.
  intros Ht Hyf Hne Hcap Hbad.
  rewrite (analysis_starts yf ticker period show_ma show σ bars info Ht Hyf Hne).
  assert ((size info =? 0)%nat = false) as ->.
  { apply Nat.eqb_neq. intros Hsize. apply map_size_empty_iff in Hsize.
    rewrite Hsize, lookup_empty in Hcap. discriminate Hcap. }
  unfold bind at 1. unfold bind at 1.
  rewrite display_company_info_unfold.
  by rewrite (money_line_fails _ _ _ _ _ _ _ Hcap
                (truediv_1e9_not_number v _ Hbad)).
Qed.
End Request.

(** ** Exact arithmetic: ranges, recurrences and the first rows *)

Section ExactSeries.
Import Spec.
Local Open Scope R_scope.
Implicit Types (cs rs : list R) (σ : heap xreal) (l : ref).

Lemma pct_change_head (x : xreal) (rest : list xreal) :
  ∃ tail, pct_change (x :: rest) = NaN :: tail
          ∧ length tail = length rest.
Proof.
  unfold pct_change, shift1. cbn [length take zip_with].
  rewrite fdiv_nan_r, fsub_nan_l. eexists. split; [reflexivity|].
  rewrite length_zip_with, length_take. cbn [length]. lia.
Qed.

Lemma rolling_head_nan w agg (ys : list xreal) i :
  (i < w)%nat → (i < S (length ys))%nat →
  rolling w agg (NaN :: ys) !! i = Some NaN.
Proof.
  intros Hw Hi. rewrite rolling_lookup by (simpl; lia). cbv zeta.
  change (prep_values (NaN :: ys)) with (NaN :: prep_values ys).
  rewrite window_partial by lia.
  replace (i + 1)%nat with (S i) by lia. rewrite firstn_cons.
  unfold dropna. rewrite filter_cons_False by (simpl; congruence).
  fold (dropna (take i (prep_values ys))).
  pose proof (length_dropna (take i (prep_values ys))) as Hd.
  rewrite length_take in Hd.
  by rewrite (proj2 (Nat.leb_gt w _)) by lia.
Qed.

Lemma volatility_head (xs : list xreal) i v :
  mul_scalar (rolling_std 20 (pct_change xs)) (fsqrt (f_of_Z 252)) !! i
    = Some v →
  (i < 20)%nat → v = NaN.
Proof.
  intros Hv Hi. pose proof (lookup_lt_Some _ _ _ Hv) as Hlt.
  unfold mul_scalar, rolling_std in Hv, Hlt.
  rewrite length_fmap, length_rolling, length_pct_change in Hlt.
  destruct xs as [|x rest]; [simpl in Hlt; lia|].
  destruct (pct_change_head x rest) as (tail & Heq & Ht).
  rewrite Heq in Hv.
  rewrite list_lookup_fmap, rolling_head_nan in Hv
    by (try done; rewrite Ht; simpl in Hlt; lia).
  simpl in Hv. by injection Hv as <-.
Qed.

(** X13. Whatever the closes are (zero, missing or infinite ones included),
    rows 0 to 19 of the Volatility column are missing: the first return is
    always missing, so no window is full before row 20.  A history of 2 to
    20 rows therefore shows NaN as its Volatility metric. *)
Theorem X13_no_volatility_in_the_first_twenty_rows σ l
    (bars : list (Bar xreal)) info :
  bars ≠ [] →
  ∃ σ' vol,
    calculate_metrics l (<[l := frame_of_bars bars]> σ) = Return (Some l) σ'
    ∧ column σ' l "Volatility" = Some vol
    ∧ (∀ i v, vol !! i = Some v → (i < 20)%nat → v = NaN)
    ∧ ((2 <= length bars <= 20)%nat →
         ∃ km, display_key_metrics l info σ' = Return km σ'
               ∧ volatility km = NaN).
Proof.
  intros Hne. eexists _, _. split; [by apply calculate_metrics_bars|].
  destruct (enriched_column σ l bars)
    as (_ & _ & _ & _ & _ & Hvol & Hclose & Hvolume).
  cbv zeta in Hvol, Hclose. split; [exact Hvol|].
  set (vols := mul_scalar _ _) in *.
  assert (length vols = length bars) as Hvlen.
  { unfold vols, mul_scalar, rolling_std.
    by rewrite length_fmap, length_rolling, length_pct_change, length_fmap. }
  assert (∀ i v, vols !! i = Some v → (i < 20)%nat → v = NaN) as Hrows
    by (intros i v; apply volatility_head).
  split; [done|]. intros [Hlo Hhi].
  destruct (closes_ends (close <$> bars)) as (a & b & z & Ha & Hb & Hz);
    [by rewrite length_fmap|].
  destruct (lookup_lt_is_Some_2 vols (length vols - 1)) as [v Hv]; [lia|].
  eexists. split.
  { apply (display_key_metrics_run _ l info (close <$> bars) _ vols a b z v
             Hclose Hvolume Hvol);
      first [done | rewrite length_fmap; lia | lia]. }
  cbn [volatility]. by rewrite (Hrows _ v Hv) by lia.
Qed.

Lemma closes_split (bars : list (Bar xreal)) cs :
  close <$> bars = Fin <$> cs → bars ≠ [] →
  ∃ c0 rest, cs = c0 :: rest ∧ length bars = S (length rest).
Proof.
  intros Hclose Hne. destruct cs as [|c0 rest]; [by destruct bars|].
  exists c0, rest. split; [done|].
  by rewrite <- (length_fmap close), Hclose, length_fmap.
Qed.

(** X14. With positive closes no return reaches -100 %: in every row
    [i >= 1] the Daily_Return and the Cumulative_Return are real numbers
    greater than -1. *)
Theorem X14_returns_stay_above_minus_one σ l (bars : list (Bar xreal)) cs :
  close <$> bars = Fin <$> cs →
  Forall (λ c, 0 < c) cs →
  bars ≠ [] →
  ∃ σ' daily cumulative,
    calculate_metrics l (<[l := frame_of_bars bars]> σ) = Return (Some l) σ'
    ∧ column σ' l "Daily_Return" = Some daily
    ∧ column σ' l "Cumulative_Return" = Some cumulative
    ∧ ∀ i, (1 <= i < length bars)%nat →
        ∃ r k, daily !! i = Some (Fin r) ∧ cumulative !! i = Some (Fin k)
               ∧ -1 < r ∧ -1 < k.
Proof.
  intros Hclose Hpos Hne.
  destruct (closes_split bars cs Hclose Hne) as (c0 & rest & -> & Hlen).
  pose proof (positive_nonzero _ Hpos) as Hnz.
  eexists _, _, _. split; [by apply calculate_metrics_bars|].
  split; [apply enriched_column|]. split; [apply enriched_column|].
  rewrite Hclose, (pct_change_reals c0 rest Hnz), (cumulative_reals c0 rest Hnz).
  intros [|j] Hi; [lia|].
  destruct (lookup_lt_is_Some_2 rest j) as [c Hc]; [lia|].
  destruct (lookup_lt_is_Some_2 (c0 :: rest) j) as [p Hp]; [simpl; lia|].
  pose proof (Forall_lookup_1 _ _ _ _ Hpos Hp) as Hppos.
  pose proof (Forall_lookup_1 _ _ (S j) c Hpos Hc) as Hcpos.
  pose proof (Forall_lookup_1 _ _ 0%nat c0 Hpos eq_refl) as H0pos.
  simpl in Hppos, Hcpos, H0pos.
  exists (c / p - 1), ((c - c0) / c0).
  rewrite !lookup_cons, !list_lookup_fmap.
  rewrite (returns_after_lookup c0 rest j c p Hp Hc), Hc.
  split; [done|]. split; [done|].
  pose proof (Rdiv_lt_0_compat c p Hcpos Hppos).
  pose proof (Rdiv_lt_0_compat c c0 Hcpos H0pos).
  split; [lra|]. replace ((c - c0) / c0) with (c / c0 - 1) by (field; lra). lra.
Qed.

(** X15. The Cumulative_Return column is the compounding of the daily
    returns and nothing else: with non-zero closes it starts at
    [cumulative[1] = daily[1]] and every later row satisfies
    [cumulative[i] = (1 + cumulative[i-1]) * (1 + daily[i]) - 1]. *)
Theorem X15_cumulative_return_compounds σ l (bars : list (Bar xreal)) cs :
  close <$> bars = Fin <$> cs →
  Forall (λ c, c ≠ 0) cs →
  (2 <= length bars)%nat →
  ∃ σ' daily cumulative,
    calculate_metrics l (<[l := frame_of_bars bars]> σ) = Return (Some l) σ'
    ∧ column σ' l "Daily_Return" = Some daily
    ∧ column σ' l "Cumulative_Return" = Some cumulative
    ∧ (∃ r, daily !! 1%nat = Some (Fin r) ∧ cumulative !! 1%nat = Some (Fin r))
    ∧ ∀ i, (2 <= i < length bars)%nat →
        ∃ k k' r, cumulative !! i = Some (Fin k)
                  ∧ cumulative !! (i - 1)%nat = Some (Fin k')
                  ∧ daily !! i = Some (Fin r)
                  ∧ k = (1 + k') * (1 + r) - 1.
Proof.
  intros Hclose Hnz Hlen2.
  assert (bars ≠ []) as Hne by (intros ->; simpl in Hlen2; lia).
  destruct (closes_split bars cs Hclose Hne) as (c0 & rest & -> & Hlen).
  pose proof (Forall_lookup_1 _ _ 0%nat c0 Hnz eq_refl) as H0. simpl in H0.
  eexists _, _, _. split; [by apply calculate_metrics_bars|].
  split; [apply enriched_column|]. split; [apply enriched_column|].
  rewrite Hclose, (pct_change_reals c0 rest Hnz), (cumulative_reals c0 rest Hnz).
  split.
  - destruct (lookup_lt_is_Some_2 rest 0) as [c Hc]; [lia|].
    exists (c / c0 - 1). rewrite !lookup_cons, !list_lookup_fmap.
    rewrite (returns_after_lookup c0 rest 0 c c0 eq_refl Hc), Hc.
    split; [done|]. simpl. do 2 f_equal. field. done.
  - intros [|[|j]] Hi; [lia|lia|].
    destruct (lookup_lt_is_Some_2 rest (S j)) as [c Hc]; [lia|].
    destruct (lookup_lt_is_Some_2 rest j) as [p Hp]; [lia|].
    pose proof (Forall_lookup_1 _ _ (S j) p Hnz Hp) as Hpnz. simpl in Hpnz.
    exists ((c - c0) / c0), ((p - c0) / c0), (c / p - 1).
    replace (S (S j) - 1)%nat with (S j) by lia.
    rewrite !lookup_cons, !list_lookup_fmap.
    rewrite (returns_after_lookup c0 rest (S j) c p Hp Hc), Hc, Hp.
    split; [done|]. split; [done|]. split; [done|]. field. done.
Qed.

Lemma sum_bounds (lo hi : R) rs :
  Forall (λ x, lo <= x <= hi) rs →
  INR (length rs) * lo <= sum rs <= INR (length rs) * hi.
Proof.
  unfold sum. induction 1 as [|x rs Hx Hrs IH].
  - simpl. lra.
  - cbn [foldr]. rewrite length_cons, S_INR. lra.
Qed.

Lemma mean_bounds (lo hi : R) rs :
  rs ≠ [] → Forall (λ x, lo <= x <= hi) rs → lo <= mean rs <= hi.
Proof.
  intros Hne Hall. pose proof (sum_bounds lo hi rs Hall) as [Hlo Hhi].
  assert (0 < INR (length rs)) as Hn
    by (apply lt_0_INR; destruct rs; [done|simpl; lia]).
  unfold mean.
  assert (INR (length rs) * (sum rs / INR (length rs)) = sum rs) as Heq
    by (field; lra).
  split; apply (Rmult_le_reg_l (INR (length rs))); try done; lra.
Qed.

Lemma slice_within {A} (P : A → Prop) (xs win : list A) lo n :
  slice_is xs lo n win → Forall P xs → Forall P win.
Proof.
  intros [Hlen Hwin] Hall. apply Forall_lookup_2. intros j x Hx.
  pose proof (lookup_lt_Some _ _ _ Hx) as Hj. rewrite Hlen in Hj.
  rewrite (Hwin j Hj) in Hx. by apply (Forall_lookup_1 _ _ _ _ Hall Hx).
Qed.

(** X16. A moving average stays within the range of the closes: if every
    close lies between [lo] and [hi], so does every value of MA_20, MA_50
    and MA_200 (in particular the averages of positive closes are
    positive). *)
Theorem X16_moving_averages_stay_in_range σ l (bars : list (Bar xreal)) cs
    (lo hi : R) :
  close <$> bars = Fin <$> cs →
  Forall (λ c, lo <= c <= hi) cs →
  bars ≠ [] →
  ∃ σ',
    calculate_metrics l (<[l := frame_of_bars bars]> σ) = Return (Some l) σ'
    ∧ Forall (λ '(k, name),
        ∃ ma, column σ' l name = Some ma
          ∧ ∀ i v, ma !! i = Some v → isnan v = false →
              ∃ m, v = Fin m ∧ lo <= m <= hi)
        ma_columns.
Proof.
  intros Hclose Hrange Hne.
  exists (<[l := enriched bars]> σ).
  split; [by apply calculate_metrics_bars|].
  assert (length cs = length bars) as Hlen
    by (by rewrite <- (length_fmap Fin cs), <- Hclose, length_fmap).
  destruct (enriched_column σ l bars) as (_ & _ & H20 & H50 & H200 & _).
  cbv zeta in H20, H50, H200. rewrite Hclose in H20, H50, H200.
  assert (∀ k, (0 < k)%nat → ∀ i v,
            rolling_mean k (Fin <$> cs) !! i = Some v → isnan v = false →
            ∃ m, v = Fin m ∧ lo <= m <= hi) as Hk.
  { intros k Hkpos i v Hv Hnan.
    pose proof (lookup_lt_Some _ _ _ Hv) as Hi.
    unfold rolling_mean in Hi. rewrite length_rolling, length_fmap in Hi.
    destruct (rolling_mean_reals k cs i Hkpos Hi) as (v' & Hv' & Hpres & Hval).
    rewrite Hv' in Hv. injection Hv as ->.
    destruct (Hval (proj1 Hpres Hnan)) as (win & Hslice & ->).
    eexists. split; [done|]. apply mean_bounds.
    - destruct Hslice as [Hwl _]. intros ->. simpl in Hwl. lia.
    - by apply (slice_within _ cs win _ _ Hslice). }
  repeat apply Forall_cons_2; [| | |apply Forall_nil_2];
    (eexists; split; [eassumption|apply Hk; lia]).
Qed.

(** X17. Volatility is never negative: with non-zero closes every value of
    the Volatility column is a real number [>= 0]. *)
Theorem X17_volatility_is_not_negative σ l (bars : list (Bar xreal)) cs :
  close <$> bars = Fin <$> cs →
  Forall (λ c, c ≠ 0) cs →
  bars ≠ [] →
  ∃ σ' vol,
    calculate_metrics l (<[l := frame_of_bars bars]> σ) = Return (Some l) σ'
    ∧ column σ' l "Volatility" = Some vol
    ∧ ∀ i v, vol !! i = Some v → isnan v = false → ∃ s, v = Fin s ∧ 0 <= s.
Proof.
  intros Hclose Hnz Hne.
  destruct (closes_split bars cs Hclose Hne) as (c0 & rest & -> & Hlen).
  eexists _, _. split; [by apply calculate_metrics_bars|].
  split; [apply enriched_column|].
  rewrite Hclose, (pct_change_reals c0 rest Hnz).
  intros i v Hv Hnan. pose proof (lookup_lt_Some _ _ _ Hv) as Hi.
  unfold mul_scalar, rolling_std in Hi.
  rewrite length_fmap, length_rolling in Hi. cbn [length] in Hi.
  rewrite length_fmap in Hi.
  destruct (volatility_reals (returns_after c0 rest) i Hi)
    as (v' & Hv' & Hpres & Hval).
  rewrite Hv' in Hv. injection Hv as ->.
  destruct (Hval (proj1 Hpres Hnan)) as (win & _ & ->).
  eexists. split; [done|].
  apply Rmult_le_pos; apply sqrt_pos.
Qed.
End ExactSeries.

(** ** Exact arithmetic: the summary, the metrics and the charts *)

Section ExactPage.
Import Spec.
Local Open Scope R_scope.
Implicit Types (cs rs : list R) (σ : heap xreal) (l : ref).

Lemma foldl_min_fin (a : R) rs :
  ∃ m, foldl (λ (m y : xreal), if fleb y m then y else m) (Fin a) (Fin <$> rs)
       = Fin m
    ∧ m <= a ∧ Forall (λ x, m <= x) rs.
Proof.
  revert a. induction rs as [|r rs IH]; intros a.
  - exists a. split; [done|]. split; [lra|constructor].
  - rewrite fmap_cons. cbn [foldl].
    change (fleb (Fin r) (Fin a)) with (if Rle_dec r a then true else false).
    destruct (Rle_dec r a) as [Hle|Hgt].
    + destruct (IH r) as (m & -> & Hm & Hall). exists m.
      split; [done|]. split; [lra|]. by constructor.
    + destruct (IH a) as (m & -> & Hm & Hall). exists m.
      split; [done|]. split; [done|]. constructor; [lra|done].
Qed.

Lemma foldl_max_fin (a : R) rs :
  ∃ m, foldl (λ (m y : xreal), if fleb m y then y else m) (Fin a) (Fin <$> rs)
       = Fin m
    ∧ a <= m ∧ Forall (λ x, x <= m) rs.
Proof.
  revert a. induction rs as [|r rs IH]; intros a.
  - exists a. split; [done|]. split; [lra|constructor].
  - rewrite fmap_cons. cbn [foldl].
    change (fleb (Fin a) (Fin r)) with (if Rle_dec a r then true else false).
    destruct (Rle_dec a r) as [Hle|Hgt].
    + destruct (IH r) as (m & -> & Hm & Hall). exists m.
      split; [done|]. split; [lra|]. by constructor.
    + destruct (IH a) as (m & -> & Hm & Hall). exists m.
      split; [done|]. split; [done|]. constructor; [lra|done].
Qed.

Lemma min_max_of_fin rs :
  rs ≠ [] →
  ∃ lo hi, min_of (Fin <$> rs) = Fin lo ∧ max_of (Fin <$> rs) = Fin hi
           ∧ Forall (λ x, lo <= x <= hi) rs.
Proof.
  destruct rs as [|r rs]; [done|]. intros _. rewrite fmap_cons.
  cbn [min_of max_of].
  destruct (foldl_min_fin r rs) as (lo & Hlo & Hlor & Hloall).
  destruct (foldl_max_fin r rs) as (hi & Hhi & Hhir & Hhiall).
  exists lo, hi. split; [exact Hlo|]. split; [exact Hhi|].
  constructor; [lra|].
  apply Forall_lookup_2. intros i x Hx. split.
  - by apply (Forall_lookup_1 _ _ _ _ Hloall Hx).
  - by apply (Forall_lookup_1 _ _ _ _ Hhiall Hx).
Qed.

Lemma dropna_after_nan rs : dropna (NaN :: (Fin <$> rs)) = Fin <$> rs.
Proof.
  unfold dropna. rewrite filter_cons_False by (simpl; congruence).
  apply dropna_fin.
Qed.

(** X18. The summary table is consistent: for a history of two rows or more
    with non-zero closes, Min Return <= Mean Return <= Max Return, and the
    Mean Return is 100 times the arithmetic mean of the daily returns of rows
    1 to n-1 (row 0, which has no return, is not counted as a zero). *)
Theorem X18_summary_min_mean_max σ l (bars : list (Bar xreal)) cs :
  close <$> bars = Fin <$> cs →
  Forall (λ c, c ≠ 0) cs →
  (2 <= length bars)%nat →
  ∃ σ' stats rets lo hi,
    calculate_metrics l (<[l := frame_of_bars bars]> σ) = Return (Some l) σ'
    ∧ column σ' l "Daily_Return" = Some (NaN :: (Fin <$> rets))
    ∧ length rets = (length bars - 1)%nat
    ∧ summary_stats l σ' = Return stats σ'
    ∧ min_return stats = Fin (lo * 100)
    ∧ mean_return stats = Fin (mean rets * 100)
    ∧ max_return stats = Fin (hi * 100)
    ∧ lo * 100 <= mean rets * 100 <= hi * 100.
Proof.
  intros Hclose Hnz Hlen2.
  assert (bars ≠ []) as Hne by (intros ->; simpl in Hlen2; lia).
  destruct (closes_split bars cs Hclose Hne) as (c0 & rest & -> & Hlen).
  destruct (enriched_column σ l bars) as (Hdaily & _).
  cbv zeta in Hdaily.
  rewrite Hclose, (pct_change_reals c0 rest Hnz) in Hdaily.
  set (rets := returns_after c0 rest) in *.
  assert (rets ≠ []) as Hrets.
  { intros Hnil. pose proof (length_returns_after c0 rest) as Hl.
    fold rets in Hl. rewrite Hnil in Hl. simpl in Hl. lia. }
  destruct (min_max_of_fin rets Hrets) as (lo & hi & Hlo & Hhi & Hall).
  pose proof (mean_bounds lo hi rets Hrets Hall) as Hmean.
  eexists _, _, rets, lo, hi. split; [by apply calculate_metrics_bars|].
  split; [exact Hdaily|].
  split; [unfold rets; rewrite length_returns_after; lia|].
  split; [by apply summary_stats_run|].
  cbn [min_return mean_return max_return]. unfold series_mean.
  rewrite dropna_after_nan, Hlo, Hhi, (mean_of_fin rets Hrets), hundred_fin.
  rewrite !fmul_fin. split; [done|]. split; [done|]. split; [done|]. lra.
Qed.

(** X19. A history of exactly two rows has a single daily return, so the
    summary cannot compute a standard deviation: Std Deviation and the
    Sharpe ratio are NaN, whatever the two closes are. *)
Theorem X19_two_rows_have_no_standard_deviation σ l (bars : list (Bar xreal)) :
  length bars = 2%nat →
  ∃ σ' stats,
    calculate_metrics l (<[l := frame_of_bars bars]> σ) = Return (Some l) σ'
    ∧ summary_stats l σ' = Return stats σ'
    ∧ std_deviation stats = NaN
    ∧ sharpe_approx stats = NaN.
Proof.
  intros Hlen.
  assert (bars ≠ []) as Hne by (intros ->; simpl in Hlen; lia).
  eexists _, _. split; [by apply calculate_metrics_bars|].
  split; [apply summary_stats_run, enriched_column|].
  cbn [std_deviation sharpe_approx].
  destruct bars as [|b1 [|b2 [|b3 bars]]]; try (simpl in Hlen; lia).
  destruct (pct_change_head (close b1) [close b2]) as (tail & Heq & Ht).
  change (close <$> [b1; b2]) with [close b1; close b2]. rewrite Heq.
  assert (series_std (NaN :: tail) = NaN) as ->.
  { unfold series_std, dropna.
    rewrite filter_cons_False by (simpl; congruence).
    fold (dropna tail). unfold std_of.
    pose proof (length_dropna tail) as Hd. simpl in Ht.
    by rewrite (proj2 (Nat.leb_le (length (dropna tail)) 1)) by lia. }
  split; [done|]. by rewrite fdiv_nan_r.
Qed.

(** X20. The Current Price metric is the last close; its delta is the change
    against the previous close in percent,
    [(last - previous) / previous * 100], positive exactly when the price
    rose; Avg Daily Volume is the arithmetic mean of the volumes.  (Two rows
    or more, positive closes.) *)
Theorem X20_price_change_and_mean_volume σ l (bars : list (Bar xreal)) cs info
    previous last :
  close <$> bars = Fin <$> cs →
  Forall (λ c, 0 < c) cs →
  (2 <= length bars)%nat →
  cs !! (length cs - 2)%nat = Some previous →
  cs !! (length cs - 1)%nat = Some last →
  ∃ σ' km,
    calculate_metrics l (<[l := frame_of_bars bars]> σ) = Return (Some l) σ'
    ∧ display_key_metrics l info σ' = Return km σ'
    ∧ current_price km = Fin last
    ∧ price_change_pct km = Fin ((last - previous) / previous * 100)
    ∧ (0 < (last - previous) / previous * 100 ↔ previous < last)
    ∧ avg_volume km = Fin (mean (IZR <$> (volume <$> bars))).
Proof.
  intros Hclose Hpos Hlen Hprev Hlast.
  assert (bars ≠ []) as Hne by (intros ->; simpl in Hlen; lia).
  assert (length cs = length bars) as Hcs
    by (by rewrite <- (length_fmap Fin cs), <- Hclose, length_fmap).
  assert (0 < previous) as Hppos
    by (by apply (Forall_lookup_1 _ _ _ _ Hpos Hprev)).
  destruct (lookup_lt_is_Some_2 cs 0) as [first Hfirst]; [lia|].
  destruct (enriched_column σ l bars)
    as (_ & _ & _ & _ & _ & Hvol & Hcl & Hvolume).
  cbv zeta in Hvol, Hcl. rewrite Hclose in Hcl.
  set (vols := mul_scalar _ _) in Hvol.
  assert (length vols = length bars) as Hvlen.
  { unfold vols, mul_scalar, rolling_std.
    by rewrite length_fmap, length_rolling, length_pct_change, length_fmap. }
  destruct (lookup_lt_is_Some_2 vols (length vols - 1)) as [v Hv]; [lia|].
  eexists _, _. split; [by apply calculate_metrics_bars|].
  split.
  { apply (display_key_metrics_run _ l info (Fin <$> cs) _ vols
             (Fin first) (Fin previous) (Fin last) v Hcl Hvolume Hvol);
      rewrite ?length_fmap, ?list_lookup_fmap, ?Hfirst, ?Hprev, ?Hlast;
      (done || lia). }
  cbn [current_price price_change_pct avg_volume]. split; [done|].
  split; [by rewrite fsub_fin, fdiv_fin, hundred_fin, fmul_fin by lra|].
  split.
  { split.
    - intros Hp. destruct (Rle_or_lt last previous) as [Hle|Hlt]; [|done].
      exfalso. assert ((last - previous) / previous <= 0); [|lra].
      apply Rmult_le_reg_r with previous; [done|].
      replace ((last - previous) / previous * previous)
        with (last - previous) by (field; lra). lra.
    - intros Hlt. apply Rmult_lt_0_compat; [|lra].
      apply Rdiv_lt_0_compat; lra. }
  unfold series_mean.
  replace (f_of_Z <$> (volume <$> bars))
    with (Fin <$> (IZR <$> (volume <$> bars)))
    by (rewrite <- !list_fmap_compose; by apply list_fmap_ext).
  rewrite dropna_fin. apply mean_of_fin.
  destruct bars; [done|]. done.
Qed.

(** X21. The returns chart and the Total Return metric tell the same story:
    with positive closes the cumulative-return line has one point per row,
    the Cumulative_Return column times 100, and its last point is the Total
    Return that [display_key_metrics] reports (in exact arithmetic); the
    histogram is fed the Daily_Return column times 100. *)
Theorem X21_returns_chart_ends_at_total_return σ l (bars : list (Bar xreal))
    cs ticker info :
  close <$> bars = Fin <$> cs →
  Forall (λ c, 0 < c) cs →
  (2 <= length bars)%nat →
  ∃ σ' daily cumulative km,
    calculate_metrics l (<[l := frame_of_bars bars]> σ) = Return (Some l) σ'
    ∧ column σ' l "Daily_Return" = Some daily
    ∧ column σ' l "Cumulative_Return" = Some cumulative
    ∧ create_returns_chart l ticker σ'
      = Return
          (mkFigure [ticker +:+ " Cumulative Returns";
                     "Daily Returns Distribution"]
             [Scatter (date <$> bars) (mul_scalar cumulative hundred)
                "Cumulative Return" "#1f77b4" 1;
              Histogram (mul_scalar daily hundred) "Daily Returns"
                "#ff7f0e" 50 2])
          σ'
    ∧ length (mul_scalar cumulative hundred) = length bars
    ∧ display_key_metrics l info σ' = Return km σ'
    ∧ mul_scalar cumulative hundred !! (length bars - 1)%nat
      = Some (total_return km).
Proof.
  intros Hclose Hpos Hlen2.
  assert (bars ≠ []) as Hne by (intros ->; simpl in Hlen2; lia).
  destruct (closes_split bars cs Hclose Hne) as (c0 & rest & -> & Hlen).
  pose proof (positive_nonzero _ Hpos) as Hnz.
  pose proof (Forall_lookup_1 _ _ 0%nat c0 Hnz eq_refl) as H0. simpl in H0.
  set (σ0 := <[l := enriched bars]> σ).
  assert (σ0 !! l = Some (enriched bars)) as Hl by apply lookup_insert_eq.
  destruct (enriched_column σ l bars)
    as (Hdaily & Hcum & _ & _ & _ & Hvol & Hcl & Hvolume).
  cbv zeta in Hdaily, Hcum, Hvol, Hcl. fold σ0 in Hdaily, Hcum, Hvol, Hcl, Hvolume.
  set (vols := mul_scalar _ _) in Hvol.
  assert (length vols = length bars) as Hvlen.
  { unfold vols, mul_scalar, rolling_std.
    by rewrite length_fmap, length_rolling, length_pct_change, length_fmap. }
  rewrite Hclose in Hcl.
  rewrite Hclose, (pct_change_reals c0 rest Hnz), (cumulative_reals c0 rest Hnz)
    in Hcum.
  destruct (lookup_lt_is_Some_2 vols (length vols - 1)) as [v Hv]; [lia|].
  destruct (lookup_lt_is_Some_2 rest (length rest - 1)) as [last Hlast]; [lia|].
  destruct (lookup_lt_is_Some_2 (c0 :: rest) (length (c0 :: rest) - 2))
    as [before Hbefore]; [simpl; lia|].
  assert ((c0 :: rest) !! (length (c0 :: rest) - 1)%nat = Some last) as Hlast'.
  { simpl. rewrite Nat.sub_0_r.
    replace (length rest) with (S (length rest - 1)) at 1 by lia. done. }
  eexists σ0, _, _, _. split; [by apply calculate_metrics_bars|].
  split; [exact Hdaily|]. split; [exact Hcum|].
  split.
  { unfold create_returns_chart.
    rewrite (bind_return _ _ _ _ _ (get_index_run _ _ _ Hl)).
    rewrite (bind_return _ _ _ _ _ (getitem_column _ _ _ _ Hcum)).
    by rewrite (bind_return _ _ _ _ _ (getitem_column _ _ _ _ Hdaily)). }
  split.
  { unfold mul_scalar. rewrite length_fmap. cbn [length].
    by rewrite !length_fmap. }
  split.
  { apply (display_key_metrics_run σ0 l info (Fin <$> c0 :: rest) _ vols
             (Fin c0) (Fin before) (Fin last) v Hcl Hvolume Hvol);
      rewrite ?length_fmap, ?list_lookup_fmap, ?Hbefore, ?Hlast';
      (done || (cbn [length]; lia)). }
  cbn [total_return]. unfold mul_scalar.
  rewrite Hlen. replace (S (length rest) - 1)%nat with (S (length rest - 1)) by lia.
  rewrite list_lookup_fmap, lookup_cons, !list_lookup_fmap, Hlast.
  cbn [fmap option_fmap option_map].
  by rewrite fsub_fin, (fdiv_fin _ c0 H0).
Qed.

Lemma fltb_fin (a b : R) :
  fltb (Fin a) (Fin b) = if Rlt_dec a b then true else false.
Proof.
  unfold fltb. cbn [fleb xreal_float64 XReal.leb].
  destruct (Rle_dec a b), (Rle_dec b a), (Rlt_dec a b); simpl;
    first [done | lra].
Qed.

(** X22. The volume bars are coloured by the direction of the day: one
    colour per row, red (#ef5350) exactly when the close is below the open
    and green (#26a69a) otherwise, a day that closes at its open included. *)
Theorem X22_volume_bars_are_red_on_down_days σ l (bars : list (Bar xreal))
    cs os ticker show_ma :
  close <$> bars = Fin <$> cs →
  open <$> bars = Fin <$> os →
  ∃ fig x y colors,
    create_price_chart l ticker show_ma (<[l := enriched bars]> σ)
      = Return fig (<[l := enriched bars]> σ)
    ∧ last (traces fig) = Some (BarTrace x y "Volume" colors 2)
    ∧ length colors = length bars
    ∧ ∀ i c o, cs !! i = Some c → os !! i = Some o →
        colors !! i = Some (if Rlt_dec c o then "#ef5350" else "#26a69a").
Proof.
  intros Hclose Hopen.
  eexists _, _, _, _. split; [apply price_chart_of_enriched|].
  cbn [traces]. split; [by rewrite !last_app|].
  unfold volume_colors.
  split; [rewrite length_zip_with, !length_fmap; lia|].
  intros i c o Hc Ho.
  rewrite lookup_zip_with, Hclose, Hopen, !list_lookup_fmap, Hc, Ho.
  simpl. rewrite fltb_fin. by destruct (Rlt_dec c o).
Qed.
End ExactPage.

(** ** The further properties at sample inputs *)

Section MoreWitnesses.
Import Spec Samples.
Local Open Scope R_scope.

Lemma X3_witness :
  ∃ σ', calculate_metrics 1%positive
          (<[1%positive := frame_of_bars two_bars]> ∅)
        = Return (Some 1%positive) σ'
    ∧ calculate_metrics 1%positive σ' = Return (Some 1%positive) σ'.
Proof.
  apply (X3_calculate_metrics_twice ∅ 1%positive two_bars). discriminate.
Defined.

Lemma X4_witness :
  calculate_metrics 1%positive (<[1%positive := open_only_frame]> ∅)
  = Raise (KeyError "Close").
Proof.
  destruct (X4_calculate_metrics_outcomes
              (<[1%positive := open_only_frame]> ∅) 1%positive open_only_frame)
    as [[He _]|[(_ & [c Hc] & _)|(_ & _ & Hraise)]];
    [ apply lookup_insert_eq
    | vm_compute in He; discriminate He
    | vm_compute in Hc; discriminate Hc
    | exact Hraise ].
Defined.

Lemma X5_witness :
  ∃ σ' ma, calculate_metrics 1%positive
             (<[1%positive := frame_of_bars two_bars]> ∅)
           = Return (Some 1%positive) σ'
    ∧ column σ' 1%positive "MA_20" = Some ma
    ∧ ma = [NaN; NaN].
Proof.
  destruct (X5_no_average_before_the_window_is_full ∅ 1%positive two_bars)
    as (σ' & Hrun & Hma); [discriminate|].
  apply Forall_cons in Hma as [(ma & Hcol & _ & Hshort) _].
  exists σ', ma. split; [exact Hrun|]. split; [exact Hcol|].
  apply Hshort. simpl. lia.
Defined.

Lemma X6_witness :
  ∃ r lines km price_fig,
    display_company_info acme_info (<[r := enriched two_bars]> ∅)
    = Return lines (<[r := enriched two_bars]> ∅)
    ∧ create_price_chart r "ABC" true (<[r := enriched two_bars]> ∅)
      = Return price_fig (<[r := enriched two_bars]> ∅)
    ∧ main two_days_acme true "abc" "1mo" true false ∅
      = Return
          ((if (size acme_info =? 0)%nat then [] else [CompanyInfo lines])
           ++ [KeyMetricsPanel km; PriceChart price_fig;
               DownloadButton r "abc_1mo_data.csv"])
          (<[r := enriched two_bars]> ∅).
Proof.
  destruct (X6_successful_request two_days_acme "abc" "1mo" true false ∅
              two_bars acme_info)
    as (r & lines & km & price_fig & returns_fig & volatility_fig & stats
        & _ & Hlines & _ & Hprice & _ & _ & _ & Hmain);
    [reflexivity | reflexivity | simpl; lia | vm_compute; reflexivity |].
  exists r, lines, km, price_fig.
  split; [exact Hlines|]. split; [exact Hprice|exact Hmain].
Defined.

Lemma X23_witness :
  main two_days_capless true "abc" "1mo" true false ∅ = Raise TypeError.
Proof.
  apply (X23_market_cap_that_is_no_number two_days_capless "abc" "1mo" true
           false ∅ two_bars capless_info PyNone);
    [ reflexivity | reflexivity | discriminate
    | vm_compute; reflexivity | reflexivity ].
Defined.

Lemma X7_witness :
  display_key_metrics 1%positive None (<[1%positive := close_only_frame]> ∅)
  = Raise (KeyError "Volume").
Proof.
  apply (X7_key_metrics_need_volume _ 1%positive close_only_frame None
           (FloatCol [Fin 100; Fin 110]));
    [apply lookup_insert_eq | reflexivity | simpl; lia | reflexivity].
Defined.

Lemma X8_witness :
  ∃ km, display_key_metrics 1%positive None
          (<[1%positive := frame_of_bars two_bars]> ∅)
        = Return km (<[1%positive := frame_of_bars two_bars]> ∅)
    ∧ current_price km = Fin 110
    ∧ volatility km = Fin 0.
Proof.
  destruct (X8_key_metrics_of_a_raw_frame ∅ 1%positive two_bars None)
    as (a & b & z & Ha & Hb & Hz & Hrun); [simpl; lia|].
  injection Hz as <-.
  eexists. split; [exact Hrun|]. split; reflexivity.
Defined.

Lemma X12_witness :
  ∃ vol km,
    display_key_metrics 1%positive None (<[1%positive := enriched two_bars]> ∅)
    = Return km (<[1%positive := enriched two_bars]> ∅)
    ∧ mul_scalar vol hundred !! 1%nat = Some (volatility km).
Proof.
  destruct (X12_volatility_chart_ends_at_the_metric ∅ 1%positive two_bars
              "ABC" None)
    as (vol & km & _ & _ & _ & Hkm & Hlast); [simpl; lia|].
  exists vol, km. split; [exact Hkm|exact Hlast].
Defined.

Lemma X13_witness :
  ∃ σ' km,
    calculate_metrics 1%positive (<[1%positive := frame_of_bars two_bars]> ∅)
    = Return (Some 1%positive) σ'
    ∧ display_key_metrics 1%positive None σ' = Return km σ'
    ∧ volatility km = NaN.
Proof.
  destruct (X13_no_volatility_in_the_first_twenty_rows ∅ 1%positive two_bars
              None)
    as (σ' & vol & Hrun & _ & _ & Hmetric); [discriminate|].
  destruct Hmetric as (km & Hkm & Hnan); [simpl; lia|].
  exists σ', km. split; [exact Hrun|]. split; [exact Hkm|exact Hnan].
Defined.

Lemma X14_witness :
  ∃ σ' daily r,
    calculate_metrics 1%positive (<[1%positive := frame_of_bars two_bars]> ∅)
    = Return (Some 1%positive) σ'
    ∧ column σ' 1%positive "Daily_Return" = Some daily
    ∧ daily !! 1%nat = Some (Fin r) ∧ -1 < r.
Proof.
  destruct (X14_returns_stay_above_minus_one ∅ 1%positive two_bars two_closes)
    as (σ' & daily & cumulative & Hrun & Hd & _ & Hrows);
    [reflexivity | repeat constructor; lra | discriminate |].
  destruct (Hrows 1%nat) as (r & k & Hr & _ & Hgt & _); [simpl; lia|].
  exists σ', daily, r. split; [exact Hrun|]. split; [exact Hd|].
  split; [exact Hr|exact Hgt].
Defined.

Lemma X15_witness :
  ∃ σ' daily cumulative k k' r,
    calculate_metrics 1%positive
      (<[1%positive := frame_of_bars rising_bars]> ∅)
    = Return (Some 1%positive) σ'
    ∧ column σ' 1%positive "Daily_Return" = Some daily
    ∧ column σ' 1%positive "Cumulative_Return" = Some cumulative
    ∧ cumulative !! 2%nat = Some (Fin k)
    ∧ cumulative !! 1%nat = Some (Fin k')
    ∧ daily !! 2%nat = Some (Fin r)
    ∧ k = (1 + k') * (1 + r) - 1.
Proof.
  destruct (X15_cumulative_return_compounds ∅ 1%positive rising_bars
              rising_closes)
    as (σ' & daily & cumulative & Hrun & Hd & Hc & _ & Hrows);
    [reflexivity | exact rising_closes_nonzero | simpl; lia |].
  destruct (Hrows 2%nat) as (k & k' & r & Hk & Hk' & Hr & Heq); [simpl; lia|].
  exists σ', daily, cumulative, k, k', r.
  split; [exact Hrun|]. split; [exact Hd|]. split; [exact Hc|].
  split; [exact Hk|]. split; [exact Hk'|]. split; [exact Hr|exact Heq].
Defined.

Lemma X16_witness :
  ∃ σ' ma,
    calculate_metrics 1%positive
      (<[1%positive := frame_of_bars rising_bars]> ∅)
    = Return (Some 1%positive) σ'
    ∧ column σ' 1%positive "MA_20" = Some ma
    ∧ ∀ i v, ma !! i = Some v → isnan v = false →
        ∃ m, v = Fin m ∧ 101 <= m <= 122.
Proof.
  destruct (X16_moving_averages_stay_in_range ∅ 1%positive rising_bars
              rising_closes 101 122)
    as (σ' & Hrun & Hma);
    [ reflexivity
    | unfold rising_closes;
      repeat (apply Forall_cons_2; [cbv beta; lra|]); apply Forall_nil_2
    | discriminate |].
  apply Forall_cons in Hma as [(ma & Hcol & Hrange) _].
  exists σ', ma. split; [exact Hrun|]. split; [exact Hcol|exact Hrange].
Defined.

Lemma X17_witness :
  ∃ σ' vol,
    calculate_metrics 1%positive
      (<[1%positive := frame_of_bars rising_bars]> ∅)
    = Return (Some 1%positive) σ'
    ∧ column σ' 1%positive "Volatility" = Some vol
    ∧ ∀ i v, vol !! i = Some v → isnan v = false → ∃ s, v = Fin s ∧ 0 <= s.
Proof.
  apply (X17_volatility_is_not_negative ∅ 1%positive rising_bars rising_closes);
    [reflexivity | exact rising_closes_nonzero | discriminate].
Defined.

Lemma X18_witness :
  ∃ σ' stats lo m hi,
    calculate_metrics 1%positive (<[1%positive := frame_of_bars rising_bars]> ∅)
    = Return (Some 1%positive) σ'
    ∧ summary_stats 1%positive σ' = Return stats σ'
    ∧ min_return stats = Fin lo
    ∧ mean_return stats = Fin m
    ∧ max_return stats = Fin hi
    ∧ lo <= m <= hi.
Proof.
  destruct (X18_summary_min_mean_max ∅ 1%positive rising_bars rising_closes)
    as (σ' & stats & rets & lo & hi & Hrun & _ & _ & Hs & Hlo & Hm & Hhi & Hle);
    [reflexivity | exact rising_closes_nonzero | simpl; lia |].
  exists σ', stats, (lo * 100), (mean rets * 100), (hi * 100).
  split; [exact Hrun|]. split; [exact Hs|]. split; [exact Hlo|].
  split; [exact Hm|]. split; [exact Hhi|exact Hle].
Defined.

Lemma X19_witness :
  ∃ σ' stats,
    calculate_metrics 1%positive (<[1%positive := frame_of_bars two_bars]> ∅)
    = Return (Some 1%positive) σ'
    ∧ summary_stats 1%positive σ' = Return stats σ'
    ∧ std_deviation stats = NaN
    ∧ sharpe_approx stats = NaN.
Proof.
  apply (X19_two_rows_have_no_standard_deviation ∅ 1%positive two_bars).
  reflexivity.
Defined.

Lemma X20_witness :
  ∃ σ' km,
    calculate_metrics 1%positive (<[1%positive := frame_of_bars two_bars]> ∅)
    = Return (Some 1%positive) σ'
    ∧ display_key_metrics 1%positive None σ' = Return km σ'
    ∧ current_price km = Fin 110
    ∧ price_change_pct km = Fin ((110 - 100) / 100 * 100).
Proof.
  destruct (X20_price_change_and_mean_volume ∅ 1%positive two_bars two_closes
              None 100 110)
    as (σ' & km & Hrun & Hkm & Hprice & Hpct & _);
    [reflexivity | repeat constructor; lra | simpl; lia
    | reflexivity | reflexivity |].
  exists σ', km. split; [exact Hrun|]. split; [exact Hkm|].
  split; [exact Hprice|exact Hpct].
Defined.

Lemma X21_witness :
  ∃ σ' cumulative km,
    calculate_metrics 1%positive (<[1%positive := frame_of_bars two_bars]> ∅)
    = Return (Some 1%positive) σ'
    ∧ column σ' 1%positive "Cumulative_Return" = Some cumulative
    ∧ display_key_metrics 1%positive None σ' = Return km σ'
    ∧ mul_scalar cumulative hundred !! 1%nat = Some (total_return km).
Proof.
  destruct (X21_returns_chart_ends_at_total_return ∅ 1%positive two_bars
              two_closes "ABC" None)
    as (σ' & daily & cumulative & km & Hrun & _ & Hc & _ & _ & Hkm & Hlast);
    [reflexivity | repeat constructor; lra | simpl; lia |].
  exists σ', cumulative, km. split; [exact Hrun|]. split; [exact Hc|].
  split; [exact Hkm|exact Hlast].
Defined.

Lemma X22_witness :
  ∃ fig x y colors,
    create_price_chart 1%positive "ABC" true
      (<[1%positive := enriched two_bars]> ∅)
    = Return fig (<[1%positive := enriched two_bars]> ∅)
    ∧ last (traces fig) = Some (BarTrace x y "Volume" colors 2)
    ∧ colors !! 0%nat
      = Some (if Rlt_dec 100 100 then "#ef5350" else "#26a69a").
Proof.
  destruct (X22_volume_bars_are_red_on_down_days ∅ 1%positive two_bars
              two_closes two_closes "ABC" true)
    as (fig & x & y & colors & Hrun & Hlast & _ & Hcolor);
    [reflexivity | reflexivity |].
  exists fig, x, y, colors. split; [exact Hrun|]. split; [exact Hlast|].
  apply (Hcolor 0%nat 100 100); reflexivity.
Defined.
End MoreWitnesses.
